(** * Full-text search of Orama: [methods/search-fulltext.ts]

    A shallow embedding of the exact-match filter, the candidate resolver,
    the relevance defaults and the search orchestrator, followed by the
    properties of the specification that were checked against them. *)

From Stdlib Require Import ZArith NArith List Bool Ascii String Lia.
From Stdlib Require Import Floats.PrimFloat.
From stdpp Require Import base option list gmap sorting.

Set Warnings "-inexact-float,-register-all".

(* ===================================================================== *)
(** ** JavaScript built-ins used by the file *)
(* ===================================================================== *)

(** A JavaScript string is a sequence of UTF-16 code units.  None of the
    regular expressions of the file carries the [u] or [i] flag, so all the
    string operations below work code unit by code unit. *)
Abbreviation char16 := N (only parsing).
Abbreviation jsstring := (list N) (only parsing).

(** String literals of the development (ASCII only). *)
Definition js (s : string) : jsstring :=
  List.map N_of_ascii (list_ascii_of_string s).
Arguments js : simpl never.

Module JS.

Local Open Scope N_scope.

(** ECMAScript [WhiteSpace] and [LineTerminator]: what [String.prototype.trim]
    strips and what [\s] matches. *)
Definition isWhiteSpace (c : char16) : bool :=
  (9 <=? c) && (c <=? 13)
  || (c =? 32) || (c =? 160) || (c =? 5760)
  || (8192 <=? c) && (c <=? 8202)
  || (c =? 8232) || (c =? 8233) || (c =? 8239) || (c =? 8287)
  || (c =? 12288) || (c =? 65279).

(** [\w] without the [u] and [i] flags: [A-Za-z0-9_]. *)
Definition isWordChar (c : char16) : bool :=
  (48 <=? c) && (c <=? 57)
  || (65 <=? c) && (c <=? 90)
  || (c =? 95)
  || (97 <=? c) && (c <=? 122).

Fixpoint trimStart (s : jsstring) : jsstring :=
  match s with
  | [] => []
  | c :: r => if isWhiteSpace c then trimStart r else s
  end.

Definition trimEnd (s : jsstring) : jsstring := rev (trimStart (rev s)).

(** [s.trim()] *)
Definition trim (s : jsstring) : jsstring := trimEnd (trimStart s).

(** [s.startsWith(p)] *)
Fixpoint startsWith (s p : jsstring) {struct p} : bool :=
  match p, s with
  | [], _ => true
  | a :: p', b :: s' => (b =? a) && startsWith s' p'
  | _ :: _, [] => false
  end.

(** [s.endsWith(p)] *)
Definition endsWith (s p : jsstring) : bool := startsWith (rev s) (rev p).

(** [s.includes(p)] *)
Fixpoint includes (s p : jsstring) : bool :=
  startsWith s p
  || match s with
     | [] => false
     | _ :: s' => includes s' p
     end.

(** [s.split(/\s+/)]: [skip] is set while a run of white space is being
    consumed, [acc] holds the current piece in reverse. *)
Fixpoint split_ws_from (skip : bool) (acc : jsstring) (s : jsstring)
  : list jsstring :=
  match s with
  | [] => [rev acc]
  | c :: r =>
      if isWhiteSpace c
      then if skip then split_ws_from true acc r
           else rev acc :: split_ws_from true [] r
      else split_ws_from false (c :: acc) r
  end.

Definition split_ws (s : jsstring) : list jsstring := split_ws_from false [] s.

(** [s.split('.')] *)
Fixpoint split_dot_from (acc : jsstring) (s : jsstring) : list jsstring :=
  match s with
  | [] => [rev acc]
  | c :: r =>
      if c =? 46 then rev acc :: split_dot_from [] r
      else split_dot_from (c :: acc) r
  end.

Definition split_dot (s : jsstring) : list jsstring := split_dot_from [] s.

(** [l.join(sep)] *)
Fixpoint join (sep : jsstring) (l : list jsstring) : jsstring :=
  match l with
  | [] => []
  | [x] => x
  | x :: r => x ++ sep ++ join sep r
  end.

(** [Boolean(s)] for a string. *)
Definition nonEmpty (s : jsstring) : bool :=
  match s with [] => false | _ :: _ => true end.

(** *** The fragment of [RegExp] the file builds

    The patterns handed to [new RegExp] are made of pattern characters,
    identity escapes of syntax characters and the assertion [\b]. *)

Inductive atom : Type :=
| Lit (c : char16)
| WordBoundary.

(** ECMAScript [SyntaxCharacter]: [^ $ \ . * + ? ( ) [ ] { } |]. *)
Definition isSyntaxCharacter (c : char16) : bool :=
  (c =? 94) || (c =? 36) || (c =? 92) || (c =? 46) || (c =? 42)
  || (c =? 43) || (c =? 63) || (c =? 40) || (c =? 41) || (c =? 91)
  || (c =? 93) || (c =? 123) || (c =? 125) || (c =? 124).

(** Parsing of a pattern; [None] is a pattern outside the fragment. *)
Fixpoint parsePattern (p : jsstring) : option (list atom) :=
  match p with
  | [] => Some []
  | c :: rest =>
      if c =? 92 then
        match rest with
        | [] => None
        | e :: rest' =>
            if e =? 98 then option_map (cons WordBoundary) (parsePattern rest')
            else if isSyntaxCharacter e
                 then option_map (cons (Lit e)) (parsePattern rest')
                 else None
        end
      else if isSyntaxCharacter c then None
      else option_map (cons (Lit c)) (parsePattern rest)
  end.

Definition isWordCharAt (c : option char16) : bool :=
  match c with
  | Some x => isWordChar x
  | None => false
  end.

(** Matching of a parsed pattern at the current position: [prev] is the
    code unit just before it, [s] what follows. *)
Fixpoint matchHere (re : list atom) (prev : option char16) (s : jsstring)
  : bool :=
  match re with
  | [] => true
  | Lit c :: re' =>
      match s with
      | x :: s' => (x =? c) && matchHere re' (Some x) s'
      | [] => false
      end
  | WordBoundary :: re' =>
      xorb (isWordCharAt prev) (isWordCharAt (head s)) && matchHere re' prev s
  end.

(** An unanchored search tries every start position from left to right. *)
Fixpoint matchFrom (re : list atom) (prev : option char16) (s : jsstring)
  : bool :=
  matchHere re prev s
  || match s with
     | [] => false
     | x :: s' => matchFrom re (Some x) s'
     end.

(** [new RegExp(pattern).test(s)] *)
Definition RegExp_test (pattern s : jsstring) : bool :=
  match parsePattern pattern with
  | Some re => matchFrom re None s
  | None => false
  end.

(** [/^\w+$/.test(s)] *)
Definition test_word_only (s : jsstring) : bool :=
  nonEmpty s && forallb isWordChar s.

(** [Array.prototype.sort] with a comparator: a stable insertion sort.  An
    element moves past another one only when the comparator returns a
    positive number for the pair; for a consistent comparator this is the
    order the language prescribes. *)
Definition positive_number (x : float) : bool := PrimFloat.ltb 0%float x.

Fixpoint sort_insert {A} (cmp : A -> A -> float) (x : A) (l : list A)
  : list A :=
  match l with
  | [] => [x]
  | y :: r =>
      if positive_number (cmp x y) then y :: sort_insert cmp x r
      else x :: l
  end.

Fixpoint sort {A} (cmp : A -> A -> float) (l : list A) : list A :=
  match l with
  | [] => []
  | x :: r => sort_insert cmp x (sort cmp r)
  end.

End JS.

(* ===================================================================== *)
(** ** Documents *)
(* ===================================================================== *)

(** JavaScript values as far as documents, where-clauses and the other
    JSON-like arguments of a search need them.  An object is the list of its
    own properties; an array is the object of its indices. *)
Inductive value : Type :=
| VUndefined
| VNull
| VBool (b : bool)
| VNumber (x : float)
| VString (s : jsstring)
| VObject (fields : list (jsstring * value)).

(** [Boolean(v)] *)
Definition truthy (v : value) : bool :=
  match v with
  | VUndefined | VNull => false
  | VBool b => b
  | VNumber x => negb (PrimFloat.is_zero x || PrimFloat.is_nan x)
  | VString s => JS.nonEmpty s
  | VObject _ => true
  end.

(** [key in obj] and [obj[key]] on the own properties of an object.  The
    members a plain object or an array inherits are functions, numbers or
    objects without string members: for the string tests of this file they
    behave as absent ones. *)
Fixpoint lookupField {V} (key : jsstring) (fields : list (jsstring * V))
  : option V :=
  match fields with
  | [] => None
  | (k, v) :: r => if bool_decide (k = key) then Some v else lookupField key r
  end.

(** [Object.keys(v)] *)
Definition Object_keys (v : value) : list jsstring :=
  match v with
  | VObject fields => List.map fst fields
  | _ => []
  end.

(** [(documentId, score)] *)
Abbreviation TokenScore := (Z * float)%type (only parsing).

(** The state of an instance that a search reads or writes: the cache entry
    [orama.caches['propertiesToSearch']] and the documents [orama.data.docs]. *)
Record Orama : Type := mkOrama {
  caches_propertiesToSearch : option (list jsstring);
  data_docs : gmap Z value
}.

(** Modelled from the spec: the document store ([documentsStore], a
    component defined outside [search-fulltext.ts]).  [get(id) -> document | absent],
    [getMultiple(ids) -> sequence<document|absent>],
    [getAll() -> map<id, document>]; an absent document is [undefined]. *)
Definition documentsStore_get (docs : gmap Z value) (id : Z) : value :=
  default VUndefined (docs !! id).

Definition documentsStore_getMultiple (docs : gmap Z value) (ids : list Z)
  : list value :=
  List.map (documentsStore_get docs) ids.

Definition documentsStore_getAll (docs : gmap Z value) : gmap Z value := docs.

(** [Object.keys(record).map(k => +k)] on a record keyed by document
    identifiers: integer keys are enumerated in ascending order. *)
Definition record_keys (docs : gmap Z value) : list Z :=
  merge_sort Z.le (map_to_list docs).*1.

(* ===================================================================== *)
(** ** The exact-match filter *)
(* ===================================================================== *)

(** [str.replace(/[.*+?^${}()|[\]\\]/g, '\\$&')] *)
Definition escapeRegex_class (c : char16) : bool :=
  ((c =? 46) || (c =? 42) || (c =? 43) || (c =? 63) || (c =? 94)
   || (c =? 36) || (c =? 123) || (c =? 125) || (c =? 40) || (c =? 41)
   || (c =? 124) || (c =? 91) || (c =? 93) || (c =? 92))%N.

Fixpoint escapeRegex (str : jsstring) : jsstring :=
  match str with
  | [] => []
  | c :: r =>
      if escapeRegex_class c then 92%N :: c :: escapeRegex r
      else c :: escapeRegex r
  end.

(** The loop of [getPropValue] over the keys of the path. *)
Fixpoint getPropValue_loop (current : value) (keys : list jsstring) : value :=
  match keys with
  | [] => current
  | key :: rest =>
      match current with
      | VObject fields =>
          match lookupField key fields with
          | Some v => getPropValue_loop v rest
          | None => VUndefined
          end
      | _ => VUndefined
      end
  end.

Definition getPropValue (obj : value) (path : jsstring) : value :=
  getPropValue_loop obj (JS.split_dot path).

(** The callback of [searchTerms.every] in [matchesExactTerm]. *)
Definition matchesSearchTerm (propValue searchTerm : jsstring) : bool :=
  let isWordOnly := JS.test_word_only searchTerm in
  if isWordOnly then
    JS.RegExp_test (js "\b" ++ escapeRegex searchTerm ++ js "\b") propValue
  else
    let escaped := escapeRegex searchTerm in
    JS.RegExp_test escaped propValue.

Definition matchesExactTerm (doc : value) (prop originalTerm : jsstring)
    (searchTerms : list jsstring)
    (preserveSpaces hasLeadingSpace hasTrailingSpace : bool) : bool :=
  match getPropValue doc prop with
  | VString propValue =>
      if preserveSpaces && (hasLeadingSpace || hasTrailingSpace)
      then
        if negb (JS.includes propValue originalTerm) then false
        else forallb (matchesSearchTerm propValue) searchTerms
      else forallb (matchesSearchTerm propValue) searchTerms
  | _ => false
  end.

Definition filterBySpaceMatch (results : list TokenScore) (orama : Orama)
    (term : jsstring) (propertiesToSearch : list jsstring) : list TokenScore :=
  List.filter
    (fun '(docId, _) =>
       let doc := documentsStore_get (data_docs orama) docId in
       if negb (truthy doc) then false
       else existsb
              (fun prop =>
                 match getPropValue doc prop with
                 | VString propValue => JS.includes propValue term
                 | _ => false
                 end)
              propertiesToSearch)
    results.

Definition filterExactMatches (orama : Orama) (results : list TokenScore)
    (term : jsstring) (propertiesToSearch : list jsstring)
    (preserveSpaces : bool) : list TokenScore :=
  let trimmedTerm := JS.trim term in
  let hasLeadingSpace := JS.startsWith term (js " ") in
  let hasTrailingSpace := JS.endsWith term (js " ") in
  if negb (JS.nonEmpty trimmedTerm) then
    if preserveSpaces && (hasLeadingSpace || hasTrailingSpace)
    then filterBySpaceMatch results orama term propertiesToSearch
    else results
  else
    let searchTerms := List.filter JS.nonEmpty (JS.split_ws trimmedTerm) in
    if (length searchTerms =? 0)%nat then results
    else
      List.filter
        (fun '(docId, _) =>
           let doc := documentsStore_get (data_docs orama) docId in
           if negb (truthy doc) then false
           else existsb
                  (fun prop =>
                     matchesExactTerm doc prop term searchTerms preserveSpaces
                       hasLeadingSpace hasTrailingSpace)
                  propertiesToSearch)
        results.

(* ===================================================================== *)
(** ** Relevance parameters, query descriptor, result envelope *)
(* ===================================================================== *)

(** [BM25Params]: each field may be left unset. *)
Module BM25Params.
Record t : Type := mk {
  k : option float;
  b : option float;
  d : option float
}.
(** The object literal [{}]. *)
Definition empty : t := mk None None None.
End BM25Params.

#[global] Instance BM25Params_inhabited : Inhabited BM25Params.t :=
  populate BM25Params.empty.

Definition defaultBM25Params : BM25Params.t :=
  BM25Params.mk (Some 1.2%float) (Some 0.75%float) (Some 0.5%float).

(** A reference to a relevance object on the heap. *)
Abbreviation ref := positive (only parsing).

(** [[id, score, document]], what a custom comparator receives. *)
Abbreviation CustomSorterFunctionItem := (Z * float * value)%type (only parsing).

Inductive SortBy : Type :=
| SortByFunction (f : CustomSorterFunctionItem -> CustomSorterFunctionItem -> float)
| SortByParams (p : value).

(** [properties]: ['*'] or an explicit list. *)
Inductive Properties : Type :=
| PropertiesAll
| PropertiesList (l : list jsstring).

Module SearchParams.
Record t : Type := mk {
  term : option jsstring;
  properties : option Properties;
  where_ : option value;
  exact : option bool;
  preserveSpaces : option bool;
  tolerance : option Z;
  boost : option value;
  relevance : option ref;
  threshold : option float;
  limit : option Z;
  offset : option Z;
  distinctOn : option jsstring;
  includeVectors : option bool;
  preflight : option bool;
  sortBy : option SortBy;
  facets : option value;
  groupBy : option value
}.

Definition with_page (limit' offset' : option Z) (p : t) : t :=
  mk (term p) (properties p) (where_ p) (exact p) (preserveSpaces p)
     (tolerance p) (boost p) (relevance p) (threshold p) limit' offset'
     (distinctOn p) (includeVectors p) (preflight p) (sortBy p) (facets p)
     (groupBy p).
End SearchParams.

(** A hit: [{ id, score, document }]. *)
Record Hit : Type := mkHit {
  hit_id : value;
  hit_score : float;
  hit_document : value
}.

Module Results.
Record t : Type := mk {
  elapsed : value;
  hits : list Hit;
  count : Z;
  facets : option value;
  groups : option value
}.
End Results.

(* ===================================================================== *)
(** ** Effects: instance state, heap, clock, errors *)
(* ===================================================================== *)

(** Calls into the index component, in the order they are issued. *)
Inductive IndexCall : Type :=
| CallGetSearchablePropertiesWithTypes
| CallGetSearchableProperties
| CallSearchByWhereClause (w : value)
| CallSearch (term : jsstring) (props : list jsstring)
| CallSearchByGeoWhereClause (w : value).

(** The calls that query the index, as opposed to reading its schema. *)
Definition isIndexQuery (c : IndexCall) : bool :=
  match c with
  | CallGetSearchablePropertiesWithTypes | CallGetSearchableProperties => false
  | CallSearchByWhereClause _ | CallSearch _ _ | CallSearchByGeoWhereClause _ => true
  end.

Record State : Type := mkState {
  st_orama : Orama;
  (** the relevance objects callers hold references to *)
  st_objects : gmap positive BM25Params.t;
  st_indexCalls : list IndexCall;
  (** the monotonic clock: its successive readings, and how many were taken *)
  st_clock : nat -> Z;
  st_clockReads : nat
}.

Inductive Error : Type :=
| OramaError (code : jsstring) (args : list jsstring)
| TypeError.

(** Modelled from the spec: [createError] (defined in [errors.js]); the
    error carries its code and the arguments it was built from. *)
Definition createError (code : jsstring) (args : list jsstring) : Error :=
  OramaError code args.

Inductive Completion (A : Type) : Type :=
| Normal (a : A)
| Throw (e : Error).
Arguments Normal {A} a.
Arguments Throw {A} e.

Definition M (A : Type) : Type := State -> Completion A * State.

Definition ret {A} (a : A) : M A := fun s => (Normal a, s).

Definition bind {A B} (m : M A) (f : A -> M B) : M B :=
  fun s =>
    match m s with
    | (Normal a, s') => f a s'
    | (Throw e, s') => (Throw e, s')
    end.

Definition throw {A} (e : Error) : M A := fun s => (Throw e, s).

Definition gets {A} (f : State -> A) : M A := fun s => (Normal (f s), s).

Definition modify (f : State -> State) : M unit := fun s => (Normal tt, f s).

Declare Scope js_scope.
Delimit Scope js_scope with js.
Notation "x <- m ;; k" := (bind m (fun x => k))
  (at level 100, m at next level, right associativity) : js_scope.
Notation "m ;; k" := (bind m (fun _ => k))
  (at level 100, right associativity) : js_scope.
Local Open Scope js_scope.

Definition set_orama (o : Orama) (s : State) : State :=
  mkState o (st_objects s) (st_indexCalls s) (st_clock s) (st_clockReads s).

Definition set_objects (h : gmap positive BM25Params.t) (s : State) : State :=
  mkState (st_orama s) h (st_indexCalls s) (st_clock s) (st_clockReads s).

Definition logIndexCall (c : IndexCall) : M unit :=
  modify (fun s =>
    mkState (st_orama s) (st_objects s) (st_indexCalls s ++ [c]) (st_clock s)
      (st_clockReads s)).

(** [getNanosecondsTime()] takes the next reading of the clock. *)
Definition getNanosecondsTime : M Z :=
  fun s =>
    (Normal (st_clock s (st_clockReads s)),
     mkState (st_orama s) (st_objects s) (st_indexCalls s) (st_clock s)
       (S (st_clockReads s))).

(** [for (const x of l) body(x)] *)
Fixpoint forEach {A} (body : A -> M unit) (l : list A) : M unit :=
  match l with
  | [] => ret tt
  | x :: r => body x ;; forEach body r
  end.

(** [l.filter(p)] with a callback that may throw. *)
Fixpoint filterM {A} (p : A -> M bool) (l : list A) : M (list A) :=
  match l with
  | [] => ret []
  | x :: r =>
      keep <- p x ;;
      rest <- filterM p r ;;
      ret (if keep then x :: rest else rest)
  end.

(** [a ?? b] *)
Definition nullish {A} (a b : option A) : option A :=
  match a with
  | Some _ => a
  | None => b
  end.

(* ===================================================================== *)
(** ** Relevance defaults *)
(* ===================================================================== *)

Definition readObject (r : ref) : M BM25Params.t :=
  gets (fun s => st_objects s !!! r).

Definition writeObject (r : ref) (o : BM25Params.t) : M unit :=
  modify (fun s => set_objects (<[r := o]> (st_objects s)) s).

(** The evaluation of an object literal allocates a fresh object. *)
Definition newObject (o : BM25Params.t) : M ref :=
  fun s =>
    let r := fresh (dom (st_objects s)) in
    (Normal r, set_objects (<[r := o]> (st_objects s)) s).

Definition applyDefault (bm25Relevance : option ref) : M ref :=
  r <- match bm25Relevance with
       | Some r => ret r
       | None => newObject BM25Params.empty
       end ;;
  o <- readObject r ;;
  writeObject r
    (BM25Params.mk (nullish (BM25Params.k o) (BM25Params.k defaultBM25Params))
       (BM25Params.b o) (BM25Params.d o)) ;;
  o <- readObject r ;;
  writeObject r
    (BM25Params.mk (BM25Params.k o)
       (nullish (BM25Params.b o) (BM25Params.b defaultBM25Params))
       (BM25Params.d o)) ;;
  o <- readObject r ;;
  writeObject r
    (BM25Params.mk (BM25Params.k o) (BM25Params.b o)
       (nullish (BM25Params.d o) (BM25Params.d defaultBM25Params))) ;;
  ret r.

(* ===================================================================== *)
(** ** The collaborators of a search *)
(* ===================================================================== *)

(** The components of the instance that are called here and defined
    elsewhere: the index (already applied to [orama.data.index] and
    [orama.tokenizer]), the sorter, the pinning, facet and group engines, the
    document fetchers, the default comparator and the registered hooks. *)
Record Components : Type := mkComponents {
  index_getSearchablePropertiesWithTypes : list (jsstring * jsstring);
  index_getSearchableProperties : list jsstring;
  index_searchByWhereClause : value -> option jsstring -> list Z;
  index_search :
    jsstring -> option jsstring -> list jsstring -> bool -> Z -> value ->
    BM25Params.t -> Z -> option (list Z) -> float -> list TokenScore;
  searchByGeoWhereClause : value -> option (list TokenScore);
  (** [Object.keys(orama.data.index.vectorIndexes)] *)
  vectorIndexes_keys : list jsstring;
  sorter_sortBy : Orama -> list TokenScore -> value -> list (value * float);
  getInternalDocumentId : Orama -> value -> Z;
  applyPinningRules :
    Orama -> list TokenScore -> option jsstring -> list TokenScore;
  fetchDocuments : Orama -> list TokenScore -> Z -> Z -> list (option Hit);
  fetchDocumentsWithDistinct :
    Orama -> list TokenScore -> Z -> Z -> jsstring -> list (option Hit);
  removeVectorsFromHits : list Hit -> list jsstring -> list Hit;
  getFacets : Orama -> list TokenScore -> value -> value;
  getGroups : Orama -> list TokenScore -> value -> value;
  formatElapsedTime : Z -> value;
  sortTokenScorePredicate : TokenScore -> TokenScore -> float;
  beforeSearch : option (list (SearchParams.t -> option jsstring -> M unit));
  afterSearch :
    option (list (SearchParams.t -> option jsstring -> Results.t -> M Results.t))
}.

(** Modelled from the spec: [count] (defined in [methods/docs.js]), the
    total live-document count. *)
Definition count (orama : Orama) : Z := Z.of_nat (size (data_docs orama)).

(** Modelled from the spec: [runBeforeSearch] and [runAfterSearch]
    (defined in [components/hooks.js]) await the hooks one after the other;
    a post-search hook may inspect or change the result. *)
Fixpoint runBeforeSearch
    (hooks : list (SearchParams.t -> option jsstring -> M unit))
    (params : SearchParams.t) (language : option jsstring) : M unit :=
  match hooks with
  | [] => ret tt
  | h :: r => h params language ;; runBeforeSearch r params language
  end.

Fixpoint runAfterSearch
    (hooks : list (SearchParams.t -> option jsstring -> Results.t -> M Results.t))
    (params : SearchParams.t) (language : option jsstring)
    (results : Results.t) : M Results.t :=
  match hooks with
  | [] => ret results
  | h :: r =>
      results' <- h params language results ;;
      runAfterSearch r params language results'
  end.

(* ===================================================================== *)
(** ** Candidate resolution *)
(* ===================================================================== *)

(** [Boolean(term)] for an optional string. *)
Definition termTruthy (term : option jsstring) : bool :=
  match term with
  | Some t => JS.nonEmpty t
  | None => false
  end.

(** [l.includes(x)] on an array of strings. *)
Definition array_includes (l : list jsstring) (x : jsstring) : bool :=
  existsb (fun y => bool_decide (y = x)) l.

(** Lines 196-206: the searchable string properties, from the cache or
    computed from the index and cached. *)
Definition resolvePropertiesToSearch (c : Components) : M (list jsstring) :=
  cached <- gets (fun s => caches_propertiesToSearch (st_orama s)) ;;
  match cached with
  | Some propertiesToSearch => ret propertiesToSearch
  | None =>
      logIndexCall CallGetSearchablePropertiesWithTypes ;;
      let propertiesToSearchWithTypes := index_getSearchablePropertiesWithTypes c in
      logIndexCall CallGetSearchableProperties ;;
      let propertiesToSearch := index_getSearchableProperties c in
      propertiesToSearch <-
        filterM
          (fun prop =>
             match lookupField prop propertiesToSearchWithTypes with
             | Some ty => ret (JS.startsWith ty (js "string"))
             | None => throw TypeError
             end)
          propertiesToSearch ;;
      modify (fun s =>
        set_orama (mkOrama (Some propertiesToSearch) (data_docs (st_orama s))) s) ;;
      ret propertiesToSearch
  end.

Definition innerFullTextSearch (c : Components) (params : SearchParams.t)
    (language : option jsstring) : M (list TokenScore) :=
  let term := SearchParams.term params in
  let properties := SearchParams.properties params in
  let preserveSpaces :=
    if default false (SearchParams.exact params)
    then default false (SearchParams.preserveSpaces params)
    else false in
  propertiesToSearch <- resolvePropertiesToSearch c ;;
  propertiesToSearch <-
    match properties with
    | Some (PropertiesList properties) =>
        forEach
          (fun prop =>
             if negb (array_includes propertiesToSearch prop)
             then throw (createError (js "UNKNOWN_INDEX")
                           [prop; JS.join (js ", ") propertiesToSearch])
             else ret tt)
          properties ;;
        ret (List.filter (fun prop => array_includes properties prop)
               propertiesToSearch)
    | _ => ret propertiesToSearch
    end ;;
  let where_ := default (VObject []) (SearchParams.where_ params) in
  let hasFilters := (0 <? length (Object_keys where_))%nat in
  whereFiltersIDs <-
    (if hasFilters then
       logIndexCall (CallSearchByWhereClause where_) ;;
       ret (Some (index_searchByWhereClause c where_ language))
     else ret None) ;;
  let threshold := default 1%float (SearchParams.threshold params) in
  if termTruthy term || bool_decide (is_Some properties) then
    orama <- gets st_orama ;;
    let docsCount := count orama in
    relevance <- applyDefault (SearchParams.relevance params) ;;
    relevance <- readObject relevance ;;
    let term' := if termTruthy term then default [] term else [] in
    logIndexCall (CallSearch term' propertiesToSearch) ;;
    let uniqueDocsIDs :=
      index_search c term' language propertiesToSearch
        (default false (SearchParams.exact params))
        (default 0%Z (SearchParams.tolerance params))
        (default (VObject []) (SearchParams.boost params))
        relevance docsCount whereFiltersIDs threshold in
    if default false (SearchParams.exact params) && termTruthy term then
      orama <- gets st_orama ;;
      ret (filterExactMatches orama uniqueDocsIDs (default [] term)
             propertiesToSearch preserveSpaces)
    else ret uniqueDocsIDs
  else
    if hasFilters then
      logIndexCall (CallSearchByGeoWhereClause where_) ;;
      match searchByGeoWhereClause c where_ with
      | Some geoResults => ret geoResults
      | None =>
          let docIds := default [] whereFiltersIDs in
          ret (List.map (fun k => (k, 0%float)) docIds)
      end
    else
      orama <- gets st_orama ;;
      let docIds := record_keys (documentsStore_getAll (data_docs orama)) in
      ret (List.map (fun k => (k, 0%float)) docIds).

(* ===================================================================== *)
(** ** The orchestrator *)
(* ===================================================================== *)

(** What [fullTextSearch] returns: a result, or a promise of one.  A promise
    is the rest of the computation; driven by the event loop it settles as
    fulfilled ([Normal]) or rejected ([Throw]). *)
Inductive SearchReturn : Type :=
| Immediate (r : Results.t)
| Pending (p : M Results.t).

(** Lines 302-308: the sequence handed to the custom comparator. *)
Definition docsWithIdAndScore (uniqueDocsArray : list TokenScore)
    (docs : list value) : M (list CustomSorterFunctionItem) :=
  match
    mapM (fun x => x)
      (imap (fun i d =>
               match uniqueDocsArray !! i with
               | Some (id, score) => Some (id, score, d)
               | None => None
               end)
         docs)
  with
  | Some l => ret l
  | None => throw TypeError
  end.

(** Lines 300-318: the sort stage. *)
Definition sortStage (c : Components) (params : SearchParams.t)
    (uniqueDocsArray : list TokenScore) : M (list TokenScore) :=
  match SearchParams.sortBy params with
  | Some (SortByFunction sortBy) =>
      let ids := List.map (fun '(id, _) => id) uniqueDocsArray in
      docs <- gets (fun s =>
                documentsStore_getMultiple (data_docs (st_orama s)) ids) ;;
      docsWithIdAndScore <- docsWithIdAndScore uniqueDocsArray docs ;;
      let docsWithIdAndScore := JS.sort sortBy docsWithIdAndScore in
      ret (List.map (fun '(id, score, _) => (id, score)) docsWithIdAndScore)
  | Some (SortByParams sortBy) =>
      if truthy sortBy then
        orama <- gets st_orama ;;
        ret (List.map
               (fun '(id, score) => (getInternalDocumentId c orama id, score))
               (sorter_sortBy c orama uniqueDocsArray sortBy))
      else ret (JS.sort (sortTokenScorePredicate c) uniqueDocsArray)
  | None => ret (JS.sort (sortTokenScorePredicate c) uniqueDocsArray)
  end.

(** Lines 298-321: the candidates after sorting and pinning, before
    pagination. *)
Definition unpaginated (c : Components) (params : SearchParams.t)
    (language : option jsstring) : M (list TokenScore) :=
  uniqueDocsArray <- innerFullTextSearch c params language ;;
  uniqueDocsArray <- sortStage c params uniqueDocsArray ;;
  orama <- gets st_orama ;;
  ret (applyPinningRules c orama uniqueDocsArray (SearchParams.term params)).

Definition performSearchLogic (c : Components) (params : SearchParams.t)
    (language : option jsstring) (timeStart : Z) : M Results.t :=
  let vectorProperties := vectorIndexes_keys c in
  let shouldCalculateFacets :=
    match SearchParams.facets params with
    | Some f => truthy f && (0 <? length (Object_keys f))%nat
    | None => false
    end in
  let limit := default 10%Z (SearchParams.limit params) in
  let offset := default 0%Z (SearchParams.offset params) in
  let distinctOn := SearchParams.distinctOn params in
  let includeVectors := default false (SearchParams.includeVectors params) in
  let isPreflight := bool_decide (SearchParams.preflight params = Some true) in
  uniqueDocsArray <- unpaginated c params language ;;
  orama <- gets st_orama ;;
  let results :=
    if negb isPreflight then
      Some (if termTruthy distinctOn
            then fetchDocumentsWithDistinct c orama uniqueDocsArray offset limit
                   (default [] distinctOn)
            else fetchDocuments c orama uniqueDocsArray offset limit)
    else None in
  let hits :=
    match results with
    | Some results =>
        let hits := omap (fun x => x) results in
        if negb includeVectors then removeVectorsFromHits c hits vectorProperties
        else hits
    | None => []
    end in
  let facets :=
    if shouldCalculateFacets
    then Some (getFacets c orama uniqueDocsArray
                 (default VUndefined (SearchParams.facets params)))
    else None in
  let groups :=
    match SearchParams.groupBy params with
    | Some g =>
        if truthy g then Some (getGroups c orama uniqueDocsArray g) else None
    | None => None
    end in
  now <- getNanosecondsTime ;;
  ret (Results.mk (formatElapsedTime c (now - timeStart)) hits
         (Z.of_nat (length uniqueDocsArray)) facets groups).

Definition executeSearchAsync (c : Components) (params : SearchParams.t)
    (language : option jsstring) (timeStart : Z) : M Results.t :=
  match beforeSearch c with
  | Some hooks => runBeforeSearch hooks params language
  | None => ret tt
  end ;;
  searchResult <- performSearchLogic c params language timeStart ;;
  match afterSearch c with
  | Some hooks => runAfterSearch hooks params language searchResult
  | None => ret searchResult
  end.

(** [hooks?.length], as a condition. *)
Definition hooksRegistered {A} (hooks : option (list A)) : bool :=
  match hooks with
  | Some (_ :: _) => true
  | _ => false
  end.

Definition fullTextSearch (c : Components) (params : SearchParams.t)
    (language : option jsstring) : M SearchReturn :=
  timeStart <- getNanosecondsTime ;;
  let asyncNeeded :=
    hooksRegistered (beforeSearch c) || hooksRegistered (afterSearch c) in
  if asyncNeeded then ret (Pending (executeSearchAsync c params language timeStart))
  else
    searchResult <- performSearchLogic c params language timeStart ;;
    ret (Immediate searchResult).


(* ===================================================================== *)
(** ** Vocabulary of the specification *)
(* ===================================================================== *)

(** [t] is a literal substring of [s]. *)
Definition occursIn (t s : jsstring) : Prop :=
  exists pre post, s = pre ++ t ++ post.

(** [t] occurs in [s] delimited by word boundaries: the code unit before the
    occurrence, if any, and the one after it, if any, are not word
    characters. *)
Definition occursAsWord (t s : jsstring) : Prop :=
  exists pre post,
    s = pre ++ t ++ post
    /\ JS.isWordCharAt (last pre) = false
    /\ JS.isWordCharAt (head post) = false.

(** What the specification asks of one split token against a stored string. *)
Definition tokenMatchSpec (propValue searchTerm : jsstring) : Prop :=
  if JS.test_word_only searchTerm then occursAsWord searchTerm propValue
  else occursIn searchTerm propValue.

(* ===================================================================== *)
(** ** Example instances *)
(* ===================================================================== *)

Definition titled (title : string) : value :=
  VObject [(js "title", VString (js title))].

Definition catDoc1 : value := titled "the cat sat".

(** Four documents whose titles are "the cat sat", "category", "c.at" and
    "cxat". *)
Definition catStore : Orama :=
  mkOrama None
    (<[4%Z := titled "cxat"]>
       (<[3%Z := titled "c.at"]>
          (<[2%Z := titled "category"]> (<[1%Z := catDoc1]> ∅)))).

Definition catCandidates : list TokenScore :=
  [(1%Z, 1%float); (2%Z, 1%float); (3%Z, 1%float); (4%Z, 1%float)].

(** The external identifier of a document in the examples: the string of
    one code unit, the internal identifier. *)
Definition externalId (id : Z) : value := VString [Z.to_N id].

Definition internalId (id : value) : Z :=
  match id with
  | VString [n] => Z.of_N n
  | _ => 0%Z
  end.

(** A ranged fetch: the documents of the candidates [offset .. offset+limit),
    an unresolved one left undefined. *)
Definition sliceFetch (orama : Orama) (arr : list TokenScore)
    (offset limit : Z) : list (option Hit) :=
  List.map
    (fun '(id, score) =>
       match data_docs orama !! id with
       | Some doc => Some (mkHit (externalId id) score doc)
       | None => None
       end)
    (take (Z.to_nat limit) (drop (Z.to_nat offset) arr)).

(** An instance without hooks or pinning rules, whose sorter keeps the order
    it is given, and whose index has the given searchable properties and
    answers every scored search with [found]. *)
Definition exampleComponents (searchable : list (jsstring * jsstring))
    (found : list TokenScore) : Components :=
  mkComponents searchable (List.map fst searchable)
    (fun _ _ => [])
    (fun _ _ _ _ _ _ _ _ _ _ => found)
    (fun _ => None)
    []
    (fun _ arr _ => List.map (fun '(id, score) => (externalId id, score)) arr)
    (fun _ id => internalId id)
    (fun _ arr _ => arr)
    sliceFetch
    (fun orama arr offset limit _ => sliceFetch orama arr offset limit)
    (fun hits _ => hits)
    (fun _ _ _ => VObject [])
    (fun _ _ _ => VObject [])
    (fun t => VObject [(js "raw", VBool (0 <? t)%Z)])
    (fun a b => PrimFloat.sub (snd b) (snd a))
    None None.

Definition titleBody : list (jsstring * jsstring) :=
  [(js "title", js "string"); (js "body", js "string")].

(** A state with the given instance and relevance objects, no call made
    yet, and a clock that advances by one at each reading. *)
Definition initialState (orama : Orama)
    (objects : gmap positive BM25Params.t) : State :=
  mkState orama objects [] Z.of_nat 0.

Definition termParams (term : string) : SearchParams.t :=
  SearchParams.mk (Some (js term)) None None None None None None None None
    None None None None None None None None.

(** The relevance object the caller supplied, [{}] when there is none. *)
Definition suppliedRelevance (bm25Relevance : option ref) (s : State)
  : BM25Params.t :=
  match bm25Relevance with
  | Some r => st_objects s !!! r
  | None => BM25Params.empty
  end.

(** A store holding document 1 only. *)
Definition oneDocStore : Orama := mkOrama None {[ 1%Z := catDoc1 ]}.

(** Two candidates, the second one not in [oneDocStore]. *)
Definition twoCandidates : list TokenScore := [(1%Z, 0.5%float); (2%Z, 0.3%float)].

(** A custom comparator: by score, descending. *)
Definition byScore (x y : CustomSorterFunctionItem) : float :=
  PrimFloat.sub (snd (fst y)) (snd (fst x)).

Definition customSortParams : SearchParams.t :=
  SearchParams.mk (Some (js "cat")) None None None None None None None None
    None None None None None (Some (SortByFunction byScore)) None None.

(** A caller-supplied relevance object [{k: 0}] at reference 1. *)
Definition partialRelevance : gmap positive BM25Params.t :=
  {[ 1%positive := BM25Params.mk (Some 0%float) None None ]}.

Definition partialRelevanceParams : SearchParams.t :=
  SearchParams.mk (Some (js "cat")) None None None None None None
    (Some 1%positive) None None None None None None None None None.

Definition unknownPropertyParams : SearchParams.t :=
  SearchParams.mk (Some (js "cat")) (Some (PropertiesList [js "nonexistent"]))
    None None None None None None None None None None None None None None None.

(** [catStore] once the searchable properties "title" and "body" have been
    computed and cached. *)
Definition resolvedState : State :=
  mkState (mkOrama (Some [js "title"; js "body"]) (data_docs catStore)) ∅
    [CallGetSearchablePropertiesWithTypes; CallGetSearchableProperties]
    Z.of_nat 0.

(** The error thrown for a property outside the searchable set. *)
Definition unknownIndexError (prop : jsstring) (propertiesToSearch : list jsstring)
  : Error :=
  createError (js "UNKNOWN_INDEX")
    [prop; JS.join (js ", ") propertiesToSearch].

(** The result of a search that returned at once. *)
Definition immediateResult (x : Completion SearchReturn * State)
  : option Results.t :=
  match fst x with
  | Normal (Immediate r) => Some r
  | _ => None
  end.

(** The [count] of a completed search. *)
Definition countOf (x : Completion Results.t * State) : Completion Z :=
  match fst x with
  | Normal r => Normal (Results.count r)
  | Throw e => Throw e
  end.

(** Two documents, only the first of which has a [title]. *)
Definition twoDocStore : Orama :=
  mkOrama None
    (<[2%Z := VObject [(js "body", VString (js "a dog"))]]>
       (<[1%Z := catDoc1]> ∅)).

(** An empty term, no where-clause, and an explicit property list. *)
Definition titleOnlyParams : SearchParams.t :=
  SearchParams.mk (Some []) (Some (PropertiesList [js "title"])) None None None
    None None None None None None None None None None None None.

(** An empty term and nothing else. *)
Definition emptyParams : SearchParams.t :=
  SearchParams.mk (Some []) None None None None None None None None
    None None None None None None None None.

(** Twenty-five documents and as many candidates. *)
Definition store25 : Orama :=
  mkOrama None
    (list_to_map (List.map (fun i => (Z.of_nat i, catDoc1)) (seq 1 25))).

Definition candidates25 : list TokenScore :=
  List.map (fun i => (Z.of_nat i, 1%float)) (seq 1 25).

Definition lastPageParams : SearchParams.t :=
  SearchParams.with_page (Some 10%Z) (Some 20%Z) (termParams "cat").

(** Time passing: [n] more readings of the clock have been taken. *)
Definition tick (n : nat) (s : State) : State :=
  mkState (st_orama s) (st_objects s) (st_indexCalls s) (st_clock s)
    (st_clockReads s + n).

(** A no-op hook completes normally and changes nothing; only time passes
    (it may read the clock). *)
Definition noopBeforeHook (h : SearchParams.t -> option jsstring -> M unit)
  : Prop :=
  forall params language s, exists n, h params language s = (Normal tt, tick n s).

Definition noopAfterHook
    (h : SearchParams.t -> option jsstring -> Results.t -> M Results.t) : Prop :=
  forall params language r s,
    exists n, h params language r s = (Normal r, tick n s).

Definition allHooks {A} (P : A -> Prop) (hooks : option (list A)) : Prop :=
  match hooks with
  | Some l => Forall P l
  | None => True
  end.

(** Two envelopes equal in every field except [elapsed]. *)
Definition sameExceptElapsed (r r' : Results.t) : Prop :=
  Results.hits r = Results.hits r'
  /\ Results.count r = Results.count r'
  /\ Results.facets r = Results.facets r'
  /\ Results.groups r = Results.groups r'.

(** The same instance with other hooks registered. *)
Definition with_hooks
    (before : option (list (SearchParams.t -> option jsstring -> M unit)))
    (after : option (list (SearchParams.t -> option jsstring -> Results.t ->
                            M Results.t)))
    (c : Components) : Components :=
  mkComponents (index_getSearchablePropertiesWithTypes c)
    (index_getSearchableProperties c) (index_searchByWhereClause c)
    (index_search c) (searchByGeoWhereClause c) (vectorIndexes_keys c)
    (sorter_sortBy c) (getInternalDocumentId c) (applyPinningRules c)
    (fetchDocuments c) (fetchDocumentsWithDistinct c) (removeVectorsFromHits c)
    (getFacets c) (getGroups c) (formatElapsedTime c)
    (sortTokenScorePredicate c) before after.

(** A pre-search and a post-search hook that do nothing. *)
Definition idleBefore : SearchParams.t -> option jsstring -> M unit :=
  fun _ _ => ret tt.

Definition idleAfter
  : SearchParams.t -> option jsstring -> Results.t -> M Results.t :=
  fun _ _ r => ret r.

(* ===================================================================== *)
(** ** Definitions used by the proofs *)
(* ===================================================================== *)

(** The code unit before the position reached after reading [t]. *)
Definition prevAfter (t : jsstring) (prev : option char16) : option char16 :=
  match last t with
  | Some x => Some x
  | None => prev
  end.

(** The validation loop of lines 209-213. *)
Definition checkProperty (propertiesToSearch : list jsstring) (prop : jsstring)
  : M unit :=
  if negb (array_includes propertiesToSearch prop)
  then throw (createError (js "UNKNOWN_INDEX")
                [prop; JS.join (js ", ") propertiesToSearch])
  else ret tt.

(** A computation that does not look at the clock runs the same way however
    many readings were taken before it. *)
Definition clockFree {A} (m : M A) : Prop :=
  forall n s, m (tick n s) = (fst (m s), tick n (snd (m s))).

(* ===================================================================== *)
(** ** Further vocabulary and example instances *)
(* ===================================================================== *)

(** The values that are not objects: [undefined], [null] and the
    primitives. *)
Definition isObject (v : value) : bool :=
  match v with
  | VObject _ => true
  | _ => false
  end.

(** The tokens [filterExactMatches] derives from a term (line 52). *)
Definition searchTermsOf (term : jsstring) : list jsstring :=
  List.filter JS.nonEmpty (JS.split_ws (JS.trim term)).

(** The test [filterExactMatches] applies to one candidate when the trimmed
    term is not empty (lines 59-66). *)
Definition keepsExactMatch (orama : Orama) (term : jsstring)
    (propertiesToSearch : list jsstring) (preserveSpaces : bool)
    (docId : Z) : bool :=
  let doc := documentsStore_get (data_docs orama) docId in
  truthy doc
  && existsb
       (fun prop =>
          matchesExactTerm doc prop term (searchTermsOf term) preserveSpaces
            (JS.startsWith term (js " ")) (JS.endsWith term (js " ")))
       propertiesToSearch.

(** A nested document. *)
Definition userDoc : value :=
  VObject [(js "user", VObject [(js "name", VString (js "John"))])].

(** The properties handed to the index (lines 208-216): the searchable ones,
    restricted to the explicit list when there is one. *)
Definition propertiesUsed (properties : option Properties)
    (propertiesToSearch : list jsstring) : list jsstring :=
  match properties with
  | Some (PropertiesList properties) =>
      List.filter (fun prop => array_includes properties prop) propertiesToSearch
  | _ => propertiesToSearch
  end.

(** Every entry of an explicit list is a searchable property. *)
Definition validProperties (properties : option Properties)
    (propertiesToSearch : list jsstring) : Prop :=
  match properties with
  | Some (PropertiesList properties) =>
      Forall (fun q => In q propertiesToSearch) properties
  | _ => True
  end.

(** The calls a where-clause causes before the scored search. *)
Definition whereCalls (where_ : value) : list IndexCall :=
  if (0 <? length (Object_keys where_))%nat
  then [CallSearchByWhereClause where_]
  else [].

(** A relevance object with the defaults filled in. *)
Definition completed (o : BM25Params.t) : BM25Params.t :=
  BM25Params.mk
    (nullish (BM25Params.k o) (BM25Params.k defaultBM25Params))
    (nullish (BM25Params.b o) (BM25Params.b defaultBM25Params))
    (nullish (BM25Params.d o) (BM25Params.d defaultBM25Params)).

(** The searchable string properties computed from the schema of the index
    (lines 198-203). *)
Definition stringProperties (c : Components) : list jsstring :=
  List.filter
    (fun prop =>
       match lookupField prop (index_getSearchablePropertiesWithTypes c) with
       | Some ty => JS.startsWith ty (js "string")
       | None => false
       end)
    (index_getSearchableProperties c).

(** A schema in which "tags" is a list of strings and "year" a number. *)
Definition mixedSchema : list (jsstring * jsstring) :=
  [(js "title", js "string"); (js "year", js "number");
   (js "tags", js "string[]")].

Definition with_preserveSpaces (preserveSpaces' : option bool)
    (p : SearchParams.t) : SearchParams.t :=
  SearchParams.mk (SearchParams.term p) (SearchParams.properties p)
    (SearchParams.where_ p) (SearchParams.exact p) preserveSpaces'
    (SearchParams.tolerance p) (SearchParams.boost p) (SearchParams.relevance p)
    (SearchParams.threshold p) (SearchParams.limit p) (SearchParams.offset p)
    (SearchParams.distinctOn p) (SearchParams.includeVectors p)
    (SearchParams.preflight p) (SearchParams.sortBy p) (SearchParams.facets p)
    (SearchParams.groupBy p).

Definition with_preflight (preflight' : option bool) (p : SearchParams.t)
  : SearchParams.t :=
  SearchParams.mk (SearchParams.term p) (SearchParams.properties p)
    (SearchParams.where_ p) (SearchParams.exact p)
    (SearchParams.preserveSpaces p) (SearchParams.tolerance p)
    (SearchParams.boost p) (SearchParams.relevance p)
    (SearchParams.threshold p) (SearchParams.limit p) (SearchParams.offset p)
    (SearchParams.distinctOn p) (SearchParams.includeVectors p) preflight'
    (SearchParams.sortBy p) (SearchParams.facets p) (SearchParams.groupBy p).

(** The scored search the term path issues (lines 234-247), on the
    searchable properties [ps] and the state [s] reached after resolving
    them. *)
Definition scoredSearch (c : Components) (params : SearchParams.t)
    (language : option jsstring) (ps : list jsstring) (s : State)
  : list TokenScore :=
  let where_ := default (VObject []) (SearchParams.where_ params) in
  index_search c
    (if termTruthy (SearchParams.term params)
     then default [] (SearchParams.term params) else [])
    language (propertiesUsed (SearchParams.properties params) ps)
    (default false (SearchParams.exact params))
    (default 0%Z (SearchParams.tolerance params))
    (default (VObject []) (SearchParams.boost params))
    (completed (suppliedRelevance (SearchParams.relevance params) s))
    (count (st_orama s))
    (if (0 <? length (Object_keys where_))%nat
     then Some (index_searchByWhereClause c where_ language)
     else None)
    (default 1%float (SearchParams.threshold params)).

(** An explicit list naming "body" before "title", and "title" twice. *)
Definition bodyTitleParams : SearchParams.t :=
  SearchParams.mk (Some (js "cat"))
    (Some (PropertiesList [js "body"; js "title"; js "title"]))
    None None None None None None None None None None None None None None None.

(** Exact mode on the term "cat". *)
Definition exactCatParams : SearchParams.t :=
  SearchParams.mk (Some (js "cat")) None None (Some true) None None None None
    None None None None None None None None None.

(** A where-clause with one key, and a query made of it alone. *)
Definition yearClause : value :=
  VObject [(js "year", VObject [(js "gt", VNumber 2000%float)])].

Definition whereOnlyParams : SearchParams.t :=
  SearchParams.mk None None (Some yearClause) None None None None None
    None None None None None None None None None.

(** An instance whose where-clause search answers with the given
    identifiers and whose geo search answers with [geo]. *)
Definition filteringComponents (ids : list Z) (geo : option (list TokenScore))
  : Components :=
  mkComponents titleBody (List.map fst titleBody)
    (fun _ _ => ids)
    (fun _ _ _ _ _ _ _ _ _ _ => [])
    (fun _ => geo)
    []
    (fun _ arr _ => List.map (fun '(id, score) => (externalId id, score)) arr)
    (fun _ id => internalId id)
    (fun _ arr _ => arr)
    sliceFetch
    (fun orama arr offset limit _ => sliceFetch orama arr offset limit)
    (fun hits _ => hits)
    (fun _ _ _ => VObject [])
    (fun _ _ _ => VObject [])
    (fun t => VObject [(js "raw", VBool (0 <? t)%Z)])
    (fun a b => PrimFloat.sub (snd b) (snd a))
    None None.

(** What candidate resolution, sorting and pinning may change in the state:
    they append to the log of index calls, may set the properties cache and
    may write the relevance object [r0] of the caller or a fresh object.
    The documents, the clock and every other existing object stay as they
    are. *)
Definition coreFrame (r0 : option ref) (s s' : State) : Prop :=
  data_docs (st_orama s') = data_docs (st_orama s)
  /\ st_clock s' = st_clock s
  /\ st_clockReads s' = st_clockReads s
  /\ (exists more, st_indexCalls s' = st_indexCalls s ++ more)
  /\ (forall r, Some r <> r0 -> is_Some (st_objects s !! r) ->
        st_objects s' !! r = st_objects s !! r).

(** A computation whose every run is within the frame. *)
Definition withinFrame (r0 : option ref) {A} (m : M A) : Prop :=
  forall s, coreFrame r0 s (snd (m s)).


(** The envelope of a preflight query: no hit. *)
Definition withoutHits (r : Results.t) : Results.t :=
  Results.mk (Results.elapsed r) [] (Results.count r) (Results.facets r)
    (Results.groups r).

(** A post-search hook that empties the hits. *)
Definition dropHitsAfter
  : SearchParams.t -> option jsstring -> Results.t -> M Results.t :=
  fun _ _ r => ret (withoutHits r).

(** Lines 323-355 of [performSearchLogic]: the envelope built from the
    unpaginated candidates [arr], the instance and the time spent. *)
Definition envelope (c : Components) (params : SearchParams.t)
    (arr : list TokenScore) (orama : Orama) (spent : Z) : Results.t :=
  let results :=
    if negb (bool_decide (SearchParams.preflight params = Some true)) then
      Some (if termTruthy (SearchParams.distinctOn params)
            then fetchDocumentsWithDistinct c orama arr
                   (default 0%Z (SearchParams.offset params))
                   (default 10%Z (SearchParams.limit params))
                   (default [] (SearchParams.distinctOn params))
            else fetchDocuments c orama arr
                   (default 0%Z (SearchParams.offset params))
                   (default 10%Z (SearchParams.limit params)))
    else None in
  Results.mk (formatElapsedTime c spent)
    match results with
    | Some results =>
        let hits := omap (fun x => x) results in
        if negb (default false (SearchParams.includeVectors params))
        then removeVectorsFromHits c hits (vectorIndexes_keys c)
        else hits
    | None => []
    end
    (Z.of_nat (length arr))
    (if match SearchParams.facets params with
        | Some f => truthy f && (0 <? length (Object_keys f))%nat
        | None => false
        end
     then Some (getFacets c orama arr
                  (default VUndefined (SearchParams.facets params)))
     else None)
    match SearchParams.groupBy params with
    | Some g => if truthy g then Some (getGroups c orama arr g) else None
    | None => None
    end.
(* ===================================================================== *)
(** ** Properties of the exact-match filter *)
(* ===================================================================== *)

Section ArrayFilter.
Context {A : Type} (keep : A -> bool).

Lemma array_filter_idempotent (l : list A) :
  List.filter keep (List.filter keep l) = List.filter keep l.
Proof.
  induction l as [|x l IH]; simpl; [reflexivity|].
  destruct (keep x) eqn:Hx; simpl; [rewrite Hx|]; congruence.
Qed.

Lemma array_filter_sublist (l : list A) : sublist (List.filter keep l) l.
Proof.
  induction l as [|x l IH]; simpl; [constructor|].
  destruct (keep x); [apply sublist_skip | apply sublist_cons]; exact IH.
Qed.
End ArrayFilter.

(** The filter is either the identity or one [Array.prototype.filter] whose
    callback only reads the store. *)
Lemma filterExactMatches_shape orama term propertiesToSearch preserveSpaces :
  exists keep : TokenScore -> bool,
    forall results,
      filterExactMatches orama results term propertiesToSearch preserveSpaces
      = List.filter keep results.
Proof.
  unfold filterExactMatches, filterBySpaceMatch.
  destruct (negb (JS.nonEmpty (JS.trim term))).
  - destruct (preserveSpaces && _).
    + eexists; intros; reflexivity.
    + exists (fun _ => true); intros results.
      induction results; simpl; congruence.
  - destruct (length _ =? 0)%nat.
    + exists (fun _ => true); intros results.
      induction results; simpl; congruence.
    + eexists; intros; reflexivity.
Qed.

(** C9: with the document store unchanged, filtering the output of the
    exact-match filter again (same term, properties and [preserveSpaces])
    returns that output: the filter is idempotent. *)
Theorem filterExactMatches_idempotent :
  forall (orama : Orama) (results : list TokenScore) (term : jsstring)
         (propertiesToSearch : list jsstring) (preserveSpaces : bool),
    filterExactMatches orama
      (filterExactMatches orama results term propertiesToSearch preserveSpaces)
      term propertiesToSearch preserveSpaces
    = filterExactMatches orama results term propertiesToSearch preserveSpaces.
Proof.
  intros orama results term props ps.
  destruct (filterExactMatches_shape orama term props ps) as [keep Hkeep].
  rewrite !Hkeep. apply array_filter_idempotent.
Qed.

(** C10: the output of the exact-match filter is a subsequence of its input:
    the retained [(documentId, score)] pairs are pairs of the input, unchanged
    and in their original order; nothing is added or rescored. *)
Theorem filterExactMatches_subsequence :
  forall (orama : Orama) (results : list TokenScore) (term : jsstring)
         (propertiesToSearch : list jsstring) (preserveSpaces : bool),
    sublist
      (filterExactMatches orama results term propertiesToSearch preserveSpaces)
      results
    /\ sublist (filterBySpaceMatch results orama term propertiesToSearch)
         results.
Proof.
  intros orama results term props ps. split.
  - destruct (filterExactMatches_shape orama term props ps) as [keep Hkeep].
    rewrite Hkeep. apply array_filter_sublist.
  - unfold filterBySpaceMatch. apply array_filter_sublist.
Qed.

(* ===================================================================== *)
(** ** The regular expressions of exact mode *)
(* ===================================================================== *)

Ltac by_code_unit c :=
  repeat match goal with
         | |- context [N.eqb c ?n] =>
             destruct (N.eqb_spec c n) as [->|?]; [reflexivity|]
         | H : context [N.eqb c ?n] |- _ =>
             destruct (N.eqb_spec c n) as [->|?]; [try discriminate H|]
         end.

Lemma escapeRegex_class_syntax c :
  escapeRegex_class c = JS.isSyntaxCharacter c.
Proof.
  unfold escapeRegex_class, JS.isSyntaxCharacter.
  by_code_unit c. reflexivity.
Qed.

Lemma escapeRegex_class_not_b c : escapeRegex_class c = true -> (c =? 98)%N = false.
Proof.
  intros H. destruct (N.eqb_spec c 98) as [->|?]; [discriminate H|reflexivity].
Qed.

Lemma not_escapeRegex_class_not_backslash c :
  escapeRegex_class c = false -> (c =? 92)%N = false.
Proof.
  intros H. destruct (N.eqb_spec c 92) as [->|?]; [discriminate H|reflexivity].
Qed.

(** Every escaped token is a pattern of the fragment: it parses to the
    sequence of its own code units. *)
Lemma parsePattern_escapeRegex t q :
  JS.parsePattern (escapeRegex t ++ q)
  = option_map (app (List.map JS.Lit t)) (JS.parsePattern q).
Proof.
  induction t as [|c t IH]; simpl.
  - destruct (JS.parsePattern q); reflexivity.
  - destruct (escapeRegex_class c) eqn:Hc; simpl.
    + rewrite (escapeRegex_class_not_b c Hc).
      rewrite <- escapeRegex_class_syntax, Hc, IH.
      destruct (JS.parsePattern q); reflexivity.
    + rewrite (not_escapeRegex_class_not_backslash c Hc).
      rewrite <- escapeRegex_class_syntax, Hc, IH.
      destruct (JS.parsePattern q); reflexivity.
Qed.

Lemma prevAfter_cons x t prev : prevAfter (x :: t) prev = prevAfter t (Some x).
Proof.
  unfold prevAfter. destruct t as [|y t]; [reflexivity|].
  rewrite last_cons. destruct (last (y :: t)) eqn:E; [reflexivity|].
  apply last_None in E. discriminate.
Qed.

Lemma prevAfter_None t : prevAfter t None = last t.
Proof. unfold prevAfter. destruct (last t); reflexivity. Qed.

Lemma matchHere_literals t re prev s :
  JS.matchHere (List.map JS.Lit t ++ re) prev s = true
  <-> exists s', s = t ++ s' /\ JS.matchHere re (prevAfter t prev) s' = true.
Proof.
  revert prev s. induction t as [|c t IH]; intros prev s; simpl.
  - split; [intros H; exists s; auto | intros (s' & -> & H); exact H].
  - destruct s as [|x s].
    + split; [discriminate | intros (s' & H & _); discriminate].
    + rewrite andb_true_iff, N.eqb_eq, IH. split.
      * intros (-> & s' & -> & H). exists s'. rewrite prevAfter_cons. auto.
      * intros (s' & Heq & H). injection Heq as -> ->.
        rewrite prevAfter_cons in H. eauto.
Qed.

Lemma matchFrom_positions re prev s :
  JS.matchFrom re prev s = true
  <-> exists pre post,
        s = pre ++ post /\ JS.matchHere re (prevAfter pre prev) post = true.
Proof.
  revert prev. induction s as [|x s IH]; intros prev; simpl.
  - rewrite orb_false_r. split.
    + intros H. exists [], []. auto.
    + intros (pre & post & Heq & H).
      symmetry in Heq. apply app_eq_nil in Heq as [-> ->]. exact H.
  - rewrite orb_true_iff, IH. split.
    + intros [H | (pre & post & -> & H)].
      * exists [], (x :: s). auto.
      * exists (x :: pre), post. rewrite prevAfter_cons. auto.
    + intros (pre & post & Heq & H). destruct pre as [|y pre].
      * simpl in Heq. subst post. left. exact H.
      * injection Heq as <- ->. right. exists pre, post.
        rewrite prevAfter_cons in H. auto.
Qed.

Lemma word_only_ends t :
  JS.test_word_only t = true ->
  JS.isWordCharAt (head t) = true /\ JS.isWordCharAt (last t) = true.
Proof.
  unfold JS.test_word_only. rewrite andb_true_iff, forallb_forall.
  intros [Hne Hall]. destruct t as [|c t]; [discriminate|]. split.
  - simpl. apply Hall. left. reflexivity.
  - destruct (last (c :: t)) as [x|] eqn:E.
    + simpl. apply Hall. apply last_Some in E as [l' ->].
      apply in_or_app. right. left. reflexivity.
    + apply last_None in E. discriminate.
Qed.

Lemma head_app_nonempty (t s : jsstring) :
  JS.nonEmpty t = true -> head (t ++ s) = head t.
Proof. destruct t; [discriminate|reflexivity]. Qed.

Lemma matchesSearchTerm_plain propValue searchTerm :
  JS.test_word_only searchTerm = false ->
  matchesSearchTerm propValue searchTerm = true <-> occursIn searchTerm propValue.
Proof.
  intros Hw. unfold matchesSearchTerm, JS.RegExp_test, occursIn. rewrite Hw.
  rewrite <- (app_nil_r (escapeRegex searchTerm)), parsePattern_escapeRegex.
  simpl. rewrite matchFrom_positions. split.
  - intros (pre & post & -> & H). apply matchHere_literals in H as (s' & -> & _).
    eauto.
  - intros (pre & post & ->). exists pre, (searchTerm ++ post). split; [reflexivity|].
    apply matchHere_literals. eauto.
Qed.

Lemma matchesSearchTerm_word propValue searchTerm :
  JS.test_word_only searchTerm = true ->
  matchesSearchTerm propValue searchTerm = true
  <-> occursAsWord searchTerm propValue.
Proof.
  intros Hw. unfold matchesSearchTerm, JS.RegExp_test, occursAsWord. rewrite Hw.
  destruct (word_only_ends _ Hw) as [Hhead Hlast].
  assert (Hne : JS.nonEmpty searchTerm = true).
  { unfold JS.test_word_only in Hw. apply andb_true_iff in Hw. tauto. }
  change (js "\b" ++ escapeRegex searchTerm ++ js "\b")
    with (92%N :: 98%N :: escapeRegex searchTerm ++ js "\b").
  cbn [JS.parsePattern]. change (92 =? 92)%N with true. change (98 =? 98)%N with true.
  cbv iota. rewrite parsePattern_escapeRegex.
  change (JS.parsePattern (js "\b")) with (Some [JS.WordBoundary]).
  cbn [option_map]. rewrite matchFrom_positions.
  assert (Hprev : forall p, prevAfter searchTerm p = last searchTerm).
  { intros p. unfold prevAfter. destruct (last searchTerm); [reflexivity|].
    discriminate Hlast. }
  split.
  - intros (pre & post & -> & H). cbn [JS.matchHere] in H.
    apply andb_true_iff in H as [Hb H].
    apply matchHere_literals in H as (s' & -> & H).
    cbn [JS.matchHere] in H. rewrite andb_true_r, Hprev, Hlast in H.
    rewrite head_app_nonempty, Hhead in Hb by exact Hne.
    exists pre, s'. split; [reflexivity|]. split.
    + rewrite prevAfter_None in Hb.
      destruct (JS.isWordCharAt (last pre)); simpl in Hb; [discriminate|reflexivity].
    + destruct (JS.isWordCharAt (head s')); simpl in H; [discriminate|reflexivity].
  - intros (pre & post & -> & Hpre & Hpost).
    exists pre, (searchTerm ++ post). split; [reflexivity|].
    cbn [JS.matchHere]. apply andb_true_iff. split.
    + rewrite head_app_nonempty, Hhead by exact Hne.
      rewrite prevAfter_None, Hpre. reflexivity.
    + apply matchHere_literals. exists post. split; [reflexivity|].
      cbn [JS.matchHere]. rewrite Hprev, Hlast, Hpost. reflexivity.
Qed.

Lemma matchesSearchTerm_spec propValue searchTerm :
  matchesSearchTerm propValue searchTerm = true
  <-> tokenMatchSpec propValue searchTerm.
Proof.
  unfold tokenMatchSpec. destruct (JS.test_word_only searchTerm) eqn:Hw.
  - apply matchesSearchTerm_word, Hw.
  - apply matchesSearchTerm_plain, Hw.
Qed.

Lemma startsWith_spec (s p : jsstring) :
  JS.startsWith s p = true <-> exists post, s = p ++ post.
Proof.
  revert s. induction p as [|a p IH]; intros s; cbn.
  - split; [intros _; exists s; reflexivity | reflexivity].
  - destruct s as [|b s].
    + split; [discriminate | intros [post H]; discriminate H].
    + rewrite andb_true_iff, N.eqb_eq, IH. split.
      * intros (-> & post & ->). eauto.
      * intros [post [= -> ->]]. eauto.
Qed.

(** [s.includes(p)] holds exactly when [p] is a substring of [s]. *)
Lemma includes_spec (s p : jsstring) :
  JS.includes s p = true <-> occursIn p s.
Proof.
  unfold occursIn. induction s as [|x s IH]; cbn [JS.includes].
  - rewrite orb_false_r, startsWith_spec. split.
    + intros [post H]. exists [], post. exact H.
    + intros (pre & post & H). symmetry in H.
      apply app_eq_nil in H as [-> H]. apply app_eq_nil in H as [-> ->].
      exists []. reflexivity.
  - rewrite orb_true_iff, startsWith_spec, IH. split.
    + intros [[post ->] | (pre & post & ->)].
      * exists [], post. reflexivity.
      * exists (x :: pre), post. reflexivity.
    + intros (pre & post & H). destruct pre as [|y pre].
      * left. exists post. exact H.
      * right. injection H as -> ->. eauto.
Qed.

Lemma forallb_matchesSearchTerm propValue searchTerms :
  forallb (matchesSearchTerm propValue) searchTerms = true
  <-> Forall (tokenMatchSpec propValue) searchTerms.
Proof.
  induction searchTerms as [|t l IH]; simpl.
  - split; [constructor | reflexivity].
  - rewrite andb_true_iff, IH, matchesSearchTerm_spec. split.
    + intros [? ?]. constructor; assumption.
    + intros H. inversion H; subst. auto.
Qed.

(** C6: in exact mode a checked property whose stored value is the string
    [propValue] passes exactly when every split token matches it (and, under
    [preserveSpaces] with a leading or trailing space, the untrimmed term is
    a substring); a token made only of ASCII word characters matches only
    where it occurs between word boundaries, so "cat" matches "the cat sat"
    and not "category", and a token with any other character matches as the
    escaped literal, so "c.at" matches only the text "c.at". *)
Theorem exact_mode_token_matching :
  (forall (doc : value) (prop term : jsstring) (searchTerms : list jsstring)
          (preserveSpaces lead trail : bool) (propValue : jsstring),
      getPropValue doc prop = VString propValue ->
      matchesExactTerm doc prop term searchTerms preserveSpaces lead trail = true
      <-> ((preserveSpaces && (lead || trail) = true -> occursIn term propValue)
           /\ Forall (tokenMatchSpec propValue) searchTerms))
  /\ (forall propValue searchTerm : jsstring,
        JS.test_word_only searchTerm = true ->
        matchesSearchTerm propValue searchTerm = true
        <-> occursAsWord searchTerm propValue)
  /\ (forall propValue searchTerm : jsstring,
        JS.test_word_only searchTerm = false ->
        matchesSearchTerm propValue searchTerm = true
        <-> occursIn searchTerm propValue)
  /\ filterExactMatches catStore catCandidates (js "cat") [js "title"] false
      = [(1%Z, 1%float)]
  /\ filterExactMatches catStore catCandidates (js "c.at") [js "title"] false
      = [(3%Z, 1%float)].
Proof.
  split; [|split; [|split; [|split]]].
  - intros doc prop term searchTerms ps lead trail propValue Hget.
    unfold matchesExactTerm. rewrite Hget.
    rewrite <- forallb_matchesSearchTerm.
    rewrite <- includes_spec.
    destruct (ps && (lead || trail)).
    + destruct (JS.includes propValue term); simpl.
      * tauto.
      * split; [discriminate | intros [H _]; discriminate (H eq_refl)].
    + split; [intros H; split; [discriminate | exact H] | tauto].
  - intros. apply matchesSearchTerm_word. assumption.
  - intros. apply matchesSearchTerm_plain. assumption.
  - vm_compute. reflexivity.
  - vm_compute. reflexivity.
Qed.

Lemma exact_mode_token_matching_witness :
  getPropValue catDoc1 (js "title") = VString (js "the cat sat")
  /\ (matchesExactTerm catDoc1 (js "title") (js "cat") [js "cat"] false false
        false = true
      <-> ((false && (false || false) = true ->
            occursIn (js "cat") (js "the cat sat"))
           /\ Forall (tokenMatchSpec (js "the cat sat")) [js "cat"])).
Proof.
  split; [reflexivity|].
  apply (proj1 exact_mode_token_matching catDoc1 (js "title") (js "cat")
           [js "cat"] false false false (js "the cat sat")).
  reflexivity.
Defined.

(* ===================================================================== *)
(** ** Relevance defaults *)
(* ===================================================================== *)

Lemma applyDefault_run (bm25Relevance : option ref) (s : State) :
  let r := match bm25Relevance with
           | Some r => r
           | None => fresh (dom (st_objects s))
           end in
  let o := suppliedRelevance bm25Relevance s in
  let o' := BM25Params.mk
              (nullish (BM25Params.k o) (BM25Params.k defaultBM25Params))
              (nullish (BM25Params.b o) (BM25Params.b defaultBM25Params))
              (nullish (BM25Params.d o) (BM25Params.d defaultBM25Params)) in
  exists s',
    applyDefault bm25Relevance s = (Normal r, s')
    /\ st_objects s' !! r = Some o'
    /\ (forall r', r' <> r -> st_objects s' !! r' = st_objects s !! r')
    /\ st_orama s' = st_orama s
    /\ st_indexCalls s' = st_indexCalls s
    /\ st_clock s' = st_clock s
    /\ st_clockReads s' = st_clockReads s.
Proof.
  destruct s as [orama objects calls clock reads].
  destruct bm25Relevance as [r|];
    cbv [applyDefault bind ret newObject readObject writeObject gets modify
         set_objects st_objects st_orama st_indexCalls st_clock st_clockReads
         suppliedRelevance];
    eexists; (split; [reflexivity|]); cbn.
  - rewrite !lookup_total_insert_eq; cbn.
    split; [rewrite lookup_insert_eq; reflexivity|].
    split; [|auto].
    intros r' Hr'. rewrite !lookup_insert_ne by congruence. reflexivity.
  - rewrite !lookup_total_insert_eq; cbn.
    split; [rewrite lookup_insert_eq; reflexivity|].
    split; [|auto].
    intros r' Hr'. rewrite !lookup_insert_ne by congruence. reflexivity.
Qed.

(** C4: [applyDefault] returns a complete object: each of [k], [b], [d] is the
    caller's value when it is defined (0, -0 and NaN included) and the
    default 1.2, 0.75, 0.5 otherwise; without a relevance object the result
    is [{k: 1.2, b: 0.75, d: 0.5}], with [{k: 0}] it is
    [{k: 0, b: 0.75, d: 0.5}]. *)
Theorem applyDefault_complete :
  (forall (bm25Relevance : option ref) (s : State),
      exists r s',
        applyDefault bm25Relevance s = (Normal r, s')
        /\ st_objects s' !! r
           = Some (BM25Params.mk
                     (Some (default 1.2%float
                              (BM25Params.k (suppliedRelevance bm25Relevance s))))
                     (Some (default 0.75%float
                              (BM25Params.b (suppliedRelevance bm25Relevance s))))
                     (Some (default 0.5%float
                              (BM25Params.d (suppliedRelevance bm25Relevance s))))))
  /\ (let '(r, s') := applyDefault None (initialState catStore ∅) in
      match r with Normal r => st_objects s' !! r | Throw _ => None end)
     = Some (BM25Params.mk (Some 1.2%float) (Some 0.75%float) (Some 0.5%float))
  /\ (let '(r, s') :=
        applyDefault (Some 1%positive)
          (initialState catStore
             {[ 1%positive := BM25Params.mk (Some 0%float) None None ]}) in
      match r with Normal r => st_objects s' !! r | Throw _ => None end)
     = Some (BM25Params.mk (Some 0%float) (Some 0.75%float) (Some 0.5%float))
  /\ (let '(r, s') :=
        applyDefault (Some 1%positive)
          (initialState catStore
             {[ 1%positive :=
                  BM25Params.mk (Some nan) (Some (-0)%float) None ]}) in
      match r with Normal r => st_objects s' !! r | Throw _ => None end)
     = Some (BM25Params.mk (Some nan) (Some (-0)%float) (Some 0.5%float)).
Proof.
  split; [|split; [|split]].
  - intros bm25Relevance s.
    destruct (applyDefault_run bm25Relevance s) as (s' & Hrun & Hobj & _).
    eexists; exists s'. split; [exact Hrun|].
    rewrite Hobj. f_equal.
    destruct (suppliedRelevance bm25Relevance s) as [[?|] [?|] [?|]];
      reflexivity.
  - vm_compute. reflexivity.
  - vm_compute. reflexivity.
  - vm_compute. reflexivity.
Qed.

(* ===================================================================== *)
(** ** Two places where the code departs from the specification *)
(* ===================================================================== *)

(** C1: with a custom comparator, a candidate whose document is not in the
    store is not excluded: candidate 2, absent from the store, reaches the
    comparator as [(2, 0.3, undefined)] and stays in the result. *)
Theorem custom_sort_input_keeps_missing_document :
  data_docs oneDocStore !! 2%Z = None
  /\ docsWithIdAndScore twoCandidates
       (documentsStore_getMultiple (data_docs oneDocStore) [1%Z; 2%Z])
       (initialState oneDocStore ∅)
     = (Normal [(1%Z, 0.5%float, catDoc1); (2%Z, 0.3%float, VUndefined)],
        initialState oneDocStore ∅)
  /\ fst (unpaginated (exampleComponents titleBody twoCandidates)
            customSortParams None (initialState oneDocStore ∅))
     = Normal twoCandidates.
Proof.
  split; [reflexivity|]. split; vm_compute; reflexivity.
Qed.

(** C2: a search writes the defaults into the relevance object of the
    caller: [{k: 0}] before the call is [{k: 0, b: 0.75, d: 0.5}] after
    it. *)
Theorem search_writes_defaults_into_caller_relevance :
  st_objects (initialState catStore partialRelevance) !! 1%positive
  = Some (BM25Params.mk (Some 0%float) None None)
  /\ st_objects
       (snd (fullTextSearch (exampleComponents titleBody []) partialRelevanceParams
               None (initialState catStore partialRelevance)))
     !! 1%positive
     = Some (BM25Params.mk (Some 0%float) (Some 0.75%float) (Some 0.5%float)).
Proof.
  split; [reflexivity|]. vm_compute. reflexivity.
Qed.

(* ===================================================================== *)
(** ** Running computations; independence from the clock *)
(* ===================================================================== *)

Lemma bind_run {A B} (m : M A) (f : A -> M B) (s : State) :
  bind m f s
  = match m s with
    | (Normal a, s') => f a s'
    | (Throw e, s') => (Throw e, s')
    end.
Proof. reflexivity. Qed.

(** A callback that leaves the state alone makes [filter] leave it alone. *)
Lemma filterM_state {A} (p : A -> M bool) :
  (forall x s, snd (p x s) = s) ->
  forall l s, snd (filterM p l s) = s.
Proof.
  intros Hp l. induction l as [|x l IH]; intros s; [reflexivity|].
  cbn [filterM]. rewrite bind_run.
  generalize (Hp x s). destruct (p x s) as [[keep|e] s']; cbn; intros ->;
    [|reflexivity].
  rewrite bind_run. generalize (IH s).
  destruct (filterM p l s) as [[rest|e] s']; cbn; intros ->; reflexivity.
Qed.

Lemma tick_tick n m s : tick m (tick n s) = tick (n + m) s.
Proof. unfold tick. cbn. rewrite Nat.add_assoc. reflexivity. Qed.

Lemma tick_0 s : tick 0 s = s.
Proof. destruct s. unfold tick. cbn. rewrite Nat.add_0_r. reflexivity. Qed.

Lemma getNanosecondsTime_run s :
  getNanosecondsTime s = (Normal (st_clock s (st_clockReads s)), tick 1 s).
Proof. unfold getNanosecondsTime, tick. rewrite Nat.add_1_r. reflexivity. Qed.

Lemma clockFree_ret {A} (a : A) : clockFree (ret a).
Proof. intros n s. reflexivity. Qed.

Lemma clockFree_throw {A} (e : Error) : clockFree (@throw A e).
Proof. intros n s. reflexivity. Qed.

Lemma clockFree_bind {A B} (m : M A) (f : A -> M B) :
  clockFree m -> (forall a, clockFree (f a)) -> clockFree (bind m f).
Proof.
  intros Hm Hf n s. rewrite !bind_run, Hm.
  destruct (m s) as [[a|e] s']; cbn; [apply Hf | reflexivity].
Qed.

Lemma clockFree_gets {A} (f : State -> A) :
  (forall n s, f (tick n s) = f s) -> clockFree (gets f).
Proof. intros Hf n s. unfold gets. rewrite Hf. reflexivity. Qed.

Lemma clockFree_modify (f : State -> State) :
  (forall n s, f (tick n s) = tick n (f s)) -> clockFree (modify f).
Proof. intros Hf n s. unfold modify. rewrite Hf. reflexivity. Qed.

Lemma clockFree_logIndexCall call : clockFree (logIndexCall call).
Proof. intros n s. reflexivity. Qed.

Lemma clockFree_readObject r : clockFree (readObject r).
Proof. intros n s. reflexivity. Qed.

Lemma clockFree_writeObject r o : clockFree (writeObject r o).
Proof. intros n s. reflexivity. Qed.

Lemma clockFree_newObject o : clockFree (newObject o).
Proof. intros n s. reflexivity. Qed.

Lemma clockFree_forEach {A} (body : A -> M unit) l :
  (forall x, clockFree (body x)) -> clockFree (forEach body l).
Proof.
  intros Hbody. induction l as [|x l IH]; cbn [forEach].
  - apply clockFree_ret.
  - apply clockFree_bind; [apply Hbody | intros _; exact IH].
Qed.

Lemma clockFree_filterM {A} (p : A -> M bool) l :
  (forall x, clockFree (p x)) -> clockFree (filterM p l).
Proof.
  intros Hp. induction l as [|x l IH]; cbn [filterM].
  - apply clockFree_ret.
  - apply clockFree_bind; [apply Hp | intros keep].
    apply clockFree_bind; [exact IH | intros rest; apply clockFree_ret].
Qed.

Create HintDb clock_free.
#[local] Hint Resolve clockFree_ret clockFree_throw clockFree_logIndexCall
  clockFree_readObject clockFree_writeObject clockFree_newObject : clock_free.

Ltac clock_free :=
  repeat first
    [ solve [auto with clock_free]
    | apply clockFree_bind; [|intros ?]
    | apply clockFree_gets; intros ? ?; reflexivity
    | apply clockFree_modify; intros ? ?; reflexivity
    | apply clockFree_forEach; intros ?
    | apply clockFree_filterM; intros ?
    | match goal with
      | |- clockFree (match ?x with _ => _ end) => destruct x
      end ].

Lemma clockFree_applyDefault bm25Relevance : clockFree (applyDefault bm25Relevance).
Proof. unfold applyDefault. clock_free. Qed.

#[local] Hint Resolve clockFree_applyDefault : clock_free.

Lemma clockFree_resolvePropertiesToSearch c :
  clockFree (resolvePropertiesToSearch c).
Proof. unfold resolvePropertiesToSearch. clock_free. Qed.

#[local] Hint Resolve clockFree_resolvePropertiesToSearch : clock_free.

Lemma clockFree_innerFullTextSearch c params language :
  clockFree (innerFullTextSearch c params language).
Proof. unfold innerFullTextSearch. cbv zeta. clock_free. Qed.

Lemma clockFree_docsWithIdAndScore arr docs :
  clockFree (docsWithIdAndScore arr docs).
Proof. unfold docsWithIdAndScore. clock_free. Qed.

#[local] Hint Resolve clockFree_innerFullTextSearch clockFree_docsWithIdAndScore
  : clock_free.

Lemma clockFree_sortStage c params arr : clockFree (sortStage c params arr).
Proof. unfold sortStage. clock_free. Qed.

#[local] Hint Resolve clockFree_sortStage : clock_free.

Lemma clockFree_unpaginated c params language :
  clockFree (unpaginated c params language).
Proof. unfold unpaginated. clock_free. Qed.

(* ===================================================================== *)
(** ** Property resolution *)
(* ===================================================================== *)

Lemma array_includes_In (l : list jsstring) (x : jsstring) :
  array_includes l x = true <-> In x l.
Proof.
  unfold array_includes. rewrite existsb_exists. split.
  - intros (y & Hy & Heq). apply bool_decide_eq_true in Heq. subst. exact Hy.
  - intros H. exists x. split; [exact H | apply bool_decide_eq_true; reflexivity].
Qed.

Lemma array_includes_not_In (l : list jsstring) (x : jsstring) :
  array_includes l x = false <-> ~ In x l.
Proof.
  rewrite <- array_includes_In. destruct (array_includes l x); split;
    congruence.
Qed.

Lemma forEach_checkProperty_unknown propertiesToSearch properties :
  (exists q, In q properties /\ ~ In q propertiesToSearch) ->
  exists l1 p l2,
    properties = l1 ++ p :: l2
    /\ Forall (fun q => In q propertiesToSearch) l1
    /\ ~ In p propertiesToSearch
    /\ forall s,
         forEach (checkProperty propertiesToSearch) properties s
         = (Throw (unknownIndexError p propertiesToSearch), s).
Proof.
  induction properties as [|x l IH]; intros (q & Hq & Hnot); [destruct Hq|].
  destruct (array_includes propertiesToSearch x) eqn:Hx.
  - destruct IH as (l1 & p & l2 & -> & Hall & Hp & Hrun).
    { destruct Hq as [->|Hq]; [|eauto].
      apply array_includes_In in Hx. contradiction. }
    exists (x :: l1), p, l2. split; [reflexivity|].
    split; [constructor; [apply array_includes_In, Hx | exact Hall]|].
    split; [exact Hp|]. intros s.
    cbn [forEach]. rewrite bind_run. unfold checkProperty at 1. rewrite Hx.
    cbn. apply Hrun.
  - exists [], x, l. split; [reflexivity|]. split; [constructor|].
    split; [apply array_includes_not_In, Hx|]. intros s.
    cbn [forEach]. rewrite bind_run. unfold checkProperty at 1. rewrite Hx.
    reflexivity.
Qed.

(** Computing the searchable set only reads the schema of the index, and only
    when the cache is cold. *)
Lemma resolvePropertiesToSearch_effect c s ps s1 :
  resolvePropertiesToSearch c s = (Normal ps, s1) ->
  exists schemaReads,
    st_indexCalls s1 = st_indexCalls s ++ schemaReads
    /\ forallb (fun call => negb (isIndexQuery call)) schemaReads = true
    /\ (is_Some (caches_propertiesToSearch (st_orama s)) -> schemaReads = [])
    /\ caches_propertiesToSearch (st_orama s1) = Some ps
    /\ data_docs (st_orama s1) = data_docs (st_orama s)
    /\ st_objects s1 = st_objects s
    /\ st_clock s1 = st_clock s
    /\ st_clockReads s1 = st_clockReads s.
Proof.
  destruct s as [[cache docs] objects calls clock reads].
  unfold resolvePropertiesToSearch. rewrite bind_run. cbn.
  destruct cache as [cached|].
  - intros [= <- <-]. exists []. cbn. rewrite app_nil_r. auto 10.
  - cbn. rewrite bind_run.
    match goal with
    | |- context [filterM ?p ?l ?s] =>
        pose proof (filterM_state p) as Hst;
        specialize (Hst (fun x s' =>
          ltac:(cbn; destruct (lookupField x _); reflexivity)) l s);
        destruct (filterM p l s) as [[kept|e] s'] eqn:Hf
    end; cbn in Hst; subst s'; [|discriminate].
    cbn. intros [= <- <-].
    exists [CallGetSearchablePropertiesWithTypes; CallGetSearchableProperties].
    cbn. rewrite <- app_assoc. cbn.
    repeat split; try reflexivity. intros [? [=]].
Qed.

Lemma innerFullTextSearch_unknown c params language properties ps p s s1 :
  SearchParams.properties params = Some (PropertiesList properties) ->
  (forall s, forEach (checkProperty ps) properties s
             = (Throw (unknownIndexError p ps), s)) ->
  resolvePropertiesToSearch c s = (Normal ps, s1) ->
  innerFullTextSearch c params language s = (Throw (unknownIndexError p ps), s1)
  /\ forall timeStart,
       performSearchLogic c params language timeStart s
       = (Throw (unknownIndexError p ps), s1).
Proof.
  intros Hprops Hrun Hres.
  assert (Hinner :
    innerFullTextSearch c params language s
    = (Throw (unknownIndexError p ps), s1)).
  { unfold innerFullTextSearch. rewrite bind_run, Hres, Hprops.
    rewrite bind_run, bind_run.
    change (forEach _ properties s1)
      with (forEach (checkProperty ps) properties s1).
    rewrite Hrun. reflexivity. }
  split; [exact Hinner|].
  intros timeStart. unfold performSearchLogic, unpaginated.
  rewrite !bind_run, Hinner. reflexivity.
Qed.

(** C3: an explicit [properties] list with an entry outside the searchable
    string properties makes the search throw [UNKNOWN_INDEX], carrying the
    first such entry and the searchable properties joined by [", "]; the
    index is not queried (no where-clause, scored or geo search is issued;
    the only calls are the two schema reads that compute the searchable set
    when it is not cached yet), and the documents and the relevance objects
    are untouched.  On an index with "title" and "body", asking for
    "nonexistent" fails naming "nonexistent" and listing "title, body". *)
Theorem unknown_property_fails_before_index_queries :
  forall (c : Components) (params : SearchParams.t) (language : option jsstring)
         (s s1 : State) (propertiesToSearch properties : list jsstring),
    resolvePropertiesToSearch c s = (Normal propertiesToSearch, s1) ->
    SearchParams.properties params = Some (PropertiesList properties) ->
    (exists q, In q properties /\ ~ In q propertiesToSearch) ->
    exists l1 p l2 schemaReads,
      properties = l1 ++ p :: l2
      /\ Forall (fun q => In q propertiesToSearch) l1
      /\ ~ In p propertiesToSearch
      /\ innerFullTextSearch c params language s
         = (Throw (createError (js "UNKNOWN_INDEX")
                     [p; JS.join (js ", ") propertiesToSearch]), s1)
      /\ (forall timeStart,
            performSearchLogic c params language timeStart s
            = (Throw (createError (js "UNKNOWN_INDEX")
                        [p; JS.join (js ", ") propertiesToSearch]), s1))
      /\ (hooksRegistered (beforeSearch c) || hooksRegistered (afterSearch c)
           = false ->
          fullTextSearch c params language s
          = (Throw (createError (js "UNKNOWN_INDEX")
                      [p; JS.join (js ", ") propertiesToSearch]), tick 1 s1))
      /\ st_indexCalls s1 = st_indexCalls s ++ schemaReads
      /\ forallb (fun call => negb (isIndexQuery call)) schemaReads = true
      /\ (is_Some (caches_propertiesToSearch (st_orama s)) -> schemaReads = [])
      /\ data_docs (st_orama s1) = data_docs (st_orama s)
      /\ st_objects s1 = st_objects s.
Proof.
  intros c params language s s1 ps l Hres Hprops Hbad.
  destruct (forEach_checkProperty_unknown ps l Hbad)
    as (l1 & p & l2 & Hl & Hall & Hp & Hrun).
  destruct (resolvePropertiesToSearch_effect c s ps s1 Hres)
    as (reads & Hcalls & Hschema & Hwarm & _ & Hdocs & Hobjs & _).
  destruct (innerFullTextSearch_unknown c params language l ps p s s1
              Hprops Hrun Hres) as [Hinner Hcore].
  exists l1, p, l2, reads.
  do 3 (split; [assumption|]).
  split; [exact Hinner|]. split; [exact Hcore|].
  split; [|auto 10].
  intros Hhooks. unfold fullTextSearch.
  rewrite bind_run, getNanosecondsTime_run. cbv zeta. rewrite Hhooks.
  rewrite bind_run.
  pose proof (clockFree_resolvePropertiesToSearch c 1%nat s) as Hres'.
  rewrite Hres in Hres'. cbn [fst snd] in Hres'.
  destruct (innerFullTextSearch_unknown c params language l ps p (tick 1 s)
              (tick 1 s1) Hprops Hrun Hres') as [_ Hcore'].
  rewrite Hcore'. reflexivity.
Qed.

Lemma unknown_property_fails_before_index_queries_witness :
  exists l1 p l2 schemaReads,
    [js "nonexistent"] = l1 ++ p :: l2
    /\ Forall (fun q => In q [js "title"; js "body"]) l1
    /\ ~ In p [js "title"; js "body"]
    /\ innerFullTextSearch (exampleComponents titleBody twoCandidates)
         unknownPropertyParams None (initialState catStore ∅)
       = (Throw (createError (js "UNKNOWN_INDEX")
                   [p; JS.join (js ", ") [js "title"; js "body"]]),
          resolvedState)
    /\ (forall timeStart,
          performSearchLogic (exampleComponents titleBody twoCandidates)
            unknownPropertyParams None timeStart (initialState catStore ∅)
          = (Throw (createError (js "UNKNOWN_INDEX")
                      [p; JS.join (js ", ") [js "title"; js "body"]]),
             resolvedState))
    /\ (hooksRegistered (beforeSearch (exampleComponents titleBody twoCandidates))
        || hooksRegistered (afterSearch (exampleComponents titleBody twoCandidates))
        = false ->
        fullTextSearch (exampleComponents titleBody twoCandidates)
          unknownPropertyParams None (initialState catStore ∅)
        = (Throw (createError (js "UNKNOWN_INDEX")
                    [p; JS.join (js ", ") [js "title"; js "body"]]),
           tick 1 resolvedState))
    /\ st_indexCalls resolvedState
       = st_indexCalls (initialState catStore ∅) ++ schemaReads
    /\ forallb (fun call => negb (isIndexQuery call)) schemaReads = true
    /\ (is_Some (caches_propertiesToSearch (st_orama (initialState catStore ∅)))
        -> schemaReads = [])
    /\ data_docs (st_orama resolvedState)
       = data_docs (st_orama (initialState catStore ∅))
    /\ st_objects resolvedState = st_objects (initialState catStore ∅).
Proof.
  apply (unknown_property_fails_before_index_queries
           (exampleComponents titleBody twoCandidates) unknownPropertyParams None
           (initialState catStore ∅) resolvedState
           [js "title"; js "body"] [js "nonexistent"]).
  - vm_compute. reflexivity.
  - reflexivity.
  - exists (js "nonexistent"). split; [left; reflexivity|].
    intros [H|[H|[]]]; discriminate H.
Defined.

(** The example of the claim, evaluated. *)
Example unknown_property_example :
  fullTextSearch (exampleComponents titleBody twoCandidates)
    unknownPropertyParams None (initialState catStore ∅)
  = (Throw (OramaError (js "UNKNOWN_INDEX") [js "nonexistent"; js "title, body"]),
     tick 1 resolvedState)
  /\ st_indexCalls resolvedState
     = [CallGetSearchablePropertiesWithTypes; CallGetSearchableProperties].
Proof. split; vm_compute; reflexivity. Qed.

(* ===================================================================== *)
(** ** Candidates and count *)
(* ===================================================================== *)

Lemma record_keys_spec (docs : gmap Z value) :
  NoDup (record_keys docs)
  /\ (forall id, id ∈ record_keys docs <-> is_Some (docs !! id))
  /\ length (record_keys docs) = size docs.
Proof.
  unfold record_keys.
  pose proof (merge_sort_Permutation Z.le (map_to_list docs).*1) as Hperm.
  split; [|split].
  - rewrite Hperm. apply NoDup_fst_map_to_list.
  - intros id. rewrite Hperm, list_elem_of_fmap. split.
    + intros ([i x] & -> & Hin). apply elem_of_map_to_list in Hin. eauto.
    + intros [x Hx]. exists (id, x). split; [reflexivity|].
      apply elem_of_map_to_list. exact Hx.
  - rewrite Hperm, length_fmap. apply length_map_to_list.
Qed.

Lemma scored_zero_spec (docIds : list Z) :
  let candidates := List.map (fun k => (k, 0%float)) docIds in
  candidates.*1 = docIds
  /\ (forall id score, (id, score) ∈ candidates <-> id ∈ docIds /\ score = 0%float)
  /\ length candidates = length docIds.
Proof.
  cbn zeta. split; [|split].
  - induction docIds as [|k l IH]; cbn; [reflexivity|]. f_equal. exact IH.
  - intros id score. rewrite !list_elem_of_In, in_map_iff. split.
    + intros (k & [= <- <-] & Hk). auto.
    + intros [Hid ->]. exists id. auto.
  - apply length_map.
Qed.

Lemma sort_insert_length {A} (cmp : A -> A -> float) x l :
  length (JS.sort_insert cmp x l) = S (length l).
Proof.
  induction l as [|y l IH]; [reflexivity|].
  cbn [JS.sort_insert]. destruct (JS.positive_number (cmp x y)).
  - cbn [length]. rewrite IH. reflexivity.
  - reflexivity.
Qed.

Lemma sort_length {A} (cmp : A -> A -> float) (l : list A) :
  length (JS.sort cmp l) = length l.
Proof.
  induction l as [|x l IH]; [reflexivity|].
  cbn [JS.sort length]. rewrite sort_insert_length, IH. reflexivity.
Qed.

(** With the store answering [getMultiple] by one entry per identifier, the
    comparator receives one triple per candidate. *)
Lemma docsWithIdAndScore_run (docs : gmap Z value) (arr : list TokenScore) s :
  docsWithIdAndScore arr
    (documentsStore_getMultiple docs (List.map (fun '(id, _) => id) arr)) s
  = (Normal
       (List.map (fun '(id, score) => (id, score, documentsStore_get docs id))
          arr), s).
Proof.
  unfold docsWithIdAndScore, documentsStore_getMultiple.
  assert (H : forall (pre : list TokenScore),
    mapM (fun x => x)
      (imap (fun i d =>
               match (pre ++ arr) !! (length pre + i)%nat with
               | Some (id, score) => Some (id, score, d)
               | None => None
               end)
         (List.map (documentsStore_get docs)
            (List.map (fun '(id, _) => id) arr)))
    = Some (List.map
              (fun '(id, score) => (id, score, documentsStore_get docs id)) arr)).
  { induction arr as [|[id score] arr IH]; intros pre; [reflexivity|].
    cbn [List.map imap]. rewrite Nat.add_0_r.
    rewrite list_lookup_middle by reflexivity. cbn.
    specialize (IH (pre ++ [(id, score)])).
    match goal with
    | |- mapM _ (imap ?f ?l) ≫= _ = _ =>
        match type of IH with
        | mapM _ (imap ?g _) = _ => rewrite (imap_ext f g l)
        end
    end.
    - rewrite IH. reflexivity.
    - intros i d _. cbn. rewrite <- app_assoc, length_app. cbn.
      replace (length pre + 1 + i)%nat with (length pre + S i)%nat by lia.
      reflexivity. }
  specialize (H []). cbn in H.
  erewrite imap_ext in H; [rewrite H; reflexivity|].
  intros; reflexivity.
Qed.

Lemma sortStage_length c params arr s :
  (forall orama l spec, length (sorter_sortBy c orama l spec) = length l) ->
  exists sorted,
    sortStage c params arr s = (Normal sorted, s)
    /\ length sorted = length arr.
Proof.
  intros Hsorter. unfold sortStage.
  destruct (SearchParams.sortBy params) as [[f|spec]|].
  - rewrite bind_run. cbn [gets]. rewrite bind_run, docsWithIdAndScore_run.
    eexists. split; [reflexivity|].
    rewrite length_map, sort_length, length_map. reflexivity.
  - destruct (truthy spec).
    + eexists. split; [reflexivity|]. rewrite length_map. apply Hsorter.
    + eexists. split; [reflexivity|]. apply sort_length.
  - eexists. split; [reflexivity|]. apply sort_length.
Qed.

Lemma innerFullTextSearch_full_scan c params language s ps s1 :
  termTruthy (SearchParams.term params) = false ->
  SearchParams.properties params = None ->
  Object_keys (default (VObject []) (SearchParams.where_ params)) = [] ->
  resolvePropertiesToSearch c s = (Normal ps, s1) ->
  innerFullTextSearch c params language s
  = (Normal (List.map (fun k => (k, 0%float))
               (record_keys (data_docs (st_orama s)))), s1).
Proof.
  intros Hterm Hprops Hwhere Hres.
  destruct (resolvePropertiesToSearch_effect c s ps s1 Hres)
    as (_ & _ & _ & _ & _ & Hdocs & _).
  unfold innerFullTextSearch. cbv zeta.
  rewrite bind_run, Hres, Hprops, Hwhere, Hterm. cbn.
  unfold documentsStore_getAll. rewrite Hdocs. reflexivity.
Qed.

Lemma performSearchLogic_count c params language timeStart s :
  countOf (performSearchLogic c params language timeStart s)
  = match unpaginated c params language s with
    | (Normal arr, _) => Normal (Z.of_nat (length arr))
    | (Throw e, _) => Throw e
    end.
Proof.
  unfold performSearchLogic, countOf. cbv zeta. rewrite bind_run.
  destruct (unpaginated c params language s) as [[arr|e] s']; reflexivity.
Qed.

(** C7, as the code has it: for a query with an empty term, no [properties]
    and no (or an empty) where-clause, candidate resolution returns every
    stored document identifier exactly once, each with score 0, and nothing
    else; [count] is the number of stored documents whenever the sort engine
    and the pinning engine return as many entries as they are given. *)
Theorem empty_query_enumerates_store :
  forall (c : Components) (params : SearchParams.t) (language : option jsstring)
         (s s1 : State) (propertiesToSearch : list jsstring),
    termTruthy (SearchParams.term params) = false ->
    SearchParams.properties params = None ->
    Object_keys (default (VObject []) (SearchParams.where_ params)) = [] ->
    resolvePropertiesToSearch c s = (Normal propertiesToSearch, s1) ->
    (forall orama l spec, length (sorter_sortBy c orama l spec) = length l) ->
    (forall orama l t, length (applyPinningRules c orama l t) = length l) ->
    exists candidates : list TokenScore,
      innerFullTextSearch c params language s = (Normal candidates, s1)
      /\ NoDup candidates.*1
      /\ (forall id score,
            (id, score) ∈ candidates
            <-> is_Some (data_docs (st_orama s) !! id) /\ score = 0%float)
      /\ length candidates = size (data_docs (st_orama s))
      /\ forall timeStart,
           countOf (performSearchLogic c params language timeStart s)
           = Normal (count (st_orama s)).
Proof.
  intros c params language s s1 ps Hterm Hprops Hwhere Hres Hsorter Hpin.
  pose proof (innerFullTextSearch_full_scan c params language s ps s1
                Hterm Hprops Hwhere Hres) as Hinner.
  destruct (record_keys_spec (data_docs (st_orama s))) as (Hnd & Hin & Hlen).
  destruct (scored_zero_spec (record_keys (data_docs (st_orama s))))
    as (Hfst & Hmem & Hlen').
  eexists. split; [exact Hinner|].
  split; [rewrite Hfst; exact Hnd|].
  split; [intros id score; rewrite Hmem, Hin; reflexivity|].
  split; [rewrite Hlen'; exact Hlen|].
  intros timeStart. rewrite performSearchLogic_count.
  unfold unpaginated. rewrite bind_run, Hinner, bind_run.
  destruct (sortStage_length c params
              (List.map (fun k => (k, 0%float))
                 (record_keys (data_docs (st_orama s)))) s1 Hsorter)
    as (sorted & -> & Hsorted).
  cbn. rewrite Hpin, Hsorted, Hlen', Hlen. reflexivity.
Qed.

Lemma empty_query_enumerates_store_witness :
  exists candidates : list TokenScore,
    innerFullTextSearch (exampleComponents titleBody []) emptyParams None
      (initialState twoDocStore ∅)
    = (Normal candidates,
       mkState (mkOrama (Some [js "title"; js "body"]) (data_docs twoDocStore))
         ∅ [CallGetSearchablePropertiesWithTypes; CallGetSearchableProperties]
         Z.of_nat 0)
    /\ NoDup candidates.*1
    /\ (forall id score,
          (id, score) ∈ candidates
          <-> is_Some (data_docs twoDocStore !! id) /\ score = 0%float)
    /\ length candidates = size (data_docs twoDocStore)
    /\ forall timeStart,
         countOf (performSearchLogic (exampleComponents titleBody []) emptyParams
                    None timeStart (initialState twoDocStore ∅))
         = Normal (count twoDocStore).
Proof.
  apply (empty_query_enumerates_store (exampleComponents titleBody [])
           emptyParams None (initialState twoDocStore ∅)
           (mkState
              (mkOrama (Some [js "title"; js "body"]) (data_docs twoDocStore)) ∅
              [CallGetSearchablePropertiesWithTypes; CallGetSearchableProperties]
              Z.of_nat 0)
           [js "title"; js "body"]).
  - reflexivity.
  - reflexivity.
  - reflexivity.
  - vm_compute. reflexivity.
  - intros; apply length_map.
  - intros; reflexivity.
Defined.

(** C7 as stated fails when [properties] is given: the scored search of the
    index answers, and a stored document without the property is not a
    candidate.  Two documents are stored, one candidate is counted. *)
Lemma empty_term_with_properties_is_not_a_full_scan :
  termTruthy (SearchParams.term titleOnlyParams) = false
  /\ SearchParams.where_ titleOnlyParams = None
  /\ count twoDocStore = 2%Z
  /\ option_map Results.count
       (immediateResult
          (fullTextSearch (exampleComponents titleBody [(1%Z, 0%float)])
             titleOnlyParams None (initialState twoDocStore ∅)))
     = Some 1%Z
  /\ fst (innerFullTextSearch (exampleComponents titleBody [(1%Z, 0%float)])
            titleOnlyParams None (initialState twoDocStore ∅))
     = Normal [(1%Z, 0%float)].
Proof.
  repeat split; vm_compute; reflexivity.
Qed.

(** C8: [count] is the length of the candidate sequence as it stands after
    sorting and pinning, before pagination; that sequence, hence [count],
    is the same whatever [limit] and [offset] are.  With 25 candidates,
    [limit = 10] and [offset = 20], [count] is 25 (and 5 hits are
    returned). *)
Theorem count_is_unpaginated_length :
  (forall (c : Components) (params : SearchParams.t)
          (language : option jsstring) (timeStart : Z) (s : State),
      countOf (performSearchLogic c params language timeStart s)
      = match unpaginated c params language s with
        | (Normal arr, _) => Normal (Z.of_nat (length arr))
        | (Throw e, _) => Throw e
        end)
  /\ (forall (c : Components) (params : SearchParams.t)
            (language : option jsstring) (s : State) (limit offset : option Z),
        unpaginated c (SearchParams.with_page limit offset params) language s
        = unpaginated c params language s)
  /\ (forall (c : Components) (params : SearchParams.t)
            (language : option jsstring) (timeStart : Z) (s : State)
            (limit offset : option Z),
        countOf (performSearchLogic c
                   (SearchParams.with_page limit offset params) language
                   timeStart s)
        = countOf (performSearchLogic c params language timeStart s))
  /\ option_map (fun r => (Results.count r, length (Results.hits r)))
       (immediateResult
          (fullTextSearch (exampleComponents titleBody candidates25)
             lastPageParams None (initialState store25 ∅)))
     = Some (25%Z, 5%nat).
Proof.
  split; [|split; [|split]].
  - intros. apply performSearchLogic_count.
  - intros. reflexivity.
  - intros. rewrite !performSearchLogic_count. reflexivity.
  - vm_compute. reflexivity.
Qed.

(* ===================================================================== *)
(** ** Synchronous and asynchronous execution *)
(* ===================================================================== *)

(** The core logic run later gives the same envelope, [elapsed] apart. *)
Lemma performSearchLogic_tick c params language timeStart n s :
  match performSearchLogic c params language timeStart s with
  | (Normal r, s2) =>
      exists r',
        performSearchLogic c params language timeStart (tick n s)
        = (Normal r', tick n s2)
        /\ sameExceptElapsed r r'
  | (Throw e, s2) =>
      performSearchLogic c params language timeStart (tick n s)
      = (Throw e, tick n s2)
  end.
Proof.
  unfold performSearchLogic. cbv zeta. rewrite !bind_run.
  rewrite (clockFree_unpaginated c params language n s).
  destruct (unpaginated c params language s) as [[arr|e] s2]; cbn;
    [|reflexivity].
  eexists. split; [reflexivity|]. repeat split.
Qed.

Lemma runBeforeSearch_noop hooks params language s :
  Forall noopBeforeHook hooks ->
  exists n, runBeforeSearch hooks params language s = (Normal tt, tick n s).
Proof.
  intros H. revert s. induction H as [|h hooks Hh _ IH]; intros s.
  - exists 0%nat. destruct s. unfold tick. cbn. rewrite Nat.add_0_r. reflexivity.
  - cbn [runBeforeSearch]. rewrite bind_run.
    destruct (Hh params language s) as [n ->].
    destruct (IH (tick n s)) as [m ->].
    exists (n + m)%nat. rewrite tick_tick. reflexivity.
Qed.

Lemma runAfterSearch_noop hooks params language r s :
  Forall noopAfterHook hooks ->
  exists n, runAfterSearch hooks params language r s = (Normal r, tick n s).
Proof.
  intros H. revert s. induction H as [|h hooks Hh _ IH]; intros s.
  - exists 0%nat. destruct s. unfold tick. cbn. rewrite Nat.add_0_r. reflexivity.
  - cbn [runAfterSearch]. rewrite bind_run.
    destruct (Hh params language r s) as [n ->].
    destruct (IH (tick n s)) as [m ->].
    exists (n + m)%nat. rewrite tick_tick. reflexivity.
Qed.

(** C5: on an instance without registered hooks the search returns its
    result at once; on the same instance with only no-op hooks registered
    it returns a promise, which settles with an envelope equal to that
    result in every field except [elapsed] (and is rejected with the same
    error when the synchronous search throws). *)
Theorem sync_async_equivalence :
  forall (c : Components)
         (before : option (list (SearchParams.t -> option jsstring -> M unit)))
         (after : option (list (SearchParams.t -> option jsstring ->
                                 Results.t -> M Results.t)))
         (params : SearchParams.t) (language : option jsstring) (s : State),
    hooksRegistered (beforeSearch c) || hooksRegistered (afterSearch c) = false ->
    hooksRegistered before || hooksRegistered after = true ->
    allHooks noopBeforeHook before ->
    allHooks noopAfterHook after ->
    exists promise s0,
      fullTextSearch (with_hooks before after c) params language s
      = (Normal (Pending promise), s0)
      /\ match fullTextSearch c params language s with
         | (Normal (Immediate r), _) =>
             exists r' s', promise s0 = (Normal r', s') /\ sameExceptElapsed r r'
         | (Normal (Pending _), _) => False
         | (Throw e, _) => exists s', promise s0 = (Throw e, s')
         end.
Proof.
  intros c before after params language s Hsync Hasync Hbefore Hafter.
  unfold fullTextSearch. rewrite !bind_run. cbn [getNanosecondsTime].
  cbv zeta. cbn [beforeSearch afterSearch with_hooks]. rewrite Hsync, Hasync.
  set (t0 := st_clock s (st_clockReads s)).
  set (s0 := mkState _ _ _ _ _).
  eexists _, s0. split; [reflexivity|].
  rewrite bind_run.
  assert (Hpre : exists n,
    match beforeSearch (with_hooks before after c) with
    | Some hooks => runBeforeSearch hooks params language
    | None => ret tt
    end s0 = (Normal tt, tick n s0)).
  { cbn [beforeSearch with_hooks]. destruct before as [hooks|].
    - apply runBeforeSearch_noop, Hbefore.
    - exists 0%nat. unfold tick, ret. cbn. rewrite Nat.add_0_r. reflexivity. }
  destruct Hpre as [n Hpre].
  unfold executeSearchAsync. rewrite bind_run, Hpre, bind_run.
  change (performSearchLogic (with_hooks before after c) params language t0)
    with (performSearchLogic c params language t0).
  pose proof (performSearchLogic_tick c params language t0 n s0) as Hcore.
  destruct (performSearchLogic c params language t0 s0) as [[r|e] s2].
  - destruct Hcore as (r' & -> & Hsame). cbn [afterSearch with_hooks ret].
    destruct after as [hooks|].
    + destruct (runAfterSearch_noop hooks params language r' (tick n s2) Hafter)
        as [m ->].
      eauto.
    + eauto.
  - rewrite Hcore. eauto.
Qed.

Lemma sync_async_equivalence_witness :
  exists promise s0,
    fullTextSearch
      (with_hooks (Some [idleBefore]) (Some [idleAfter])
         (exampleComponents titleBody twoCandidates))
      (termParams "cat") None (initialState catStore ∅)
    = (Normal (Pending promise), s0)
    /\ match
         fullTextSearch (exampleComponents titleBody twoCandidates)
           (termParams "cat") None (initialState catStore ∅)
       with
       | (Normal (Immediate r), _) =>
           exists r' s', promise s0 = (Normal r', s') /\ sameExceptElapsed r r'
       | (Normal (Pending _), _) => False
       | (Throw e, _) => exists s', promise s0 = (Throw e, s')
       end.
Proof.
  apply (sync_async_equivalence (exampleComponents titleBody twoCandidates)
           (Some [idleBefore]) (Some [idleAfter]) (termParams "cat") None
           (initialState catStore ∅)).
  - reflexivity.
  - reflexivity.
  - constructor; [|constructor]. intros params language s. exists 0%nat.
    destruct s. unfold idleBefore, ret, tick. cbn. rewrite Nat.add_0_r.
    reflexivity.
  - constructor; [|constructor]. intros params language r s. exists 0%nat.
    destruct s. unfold idleAfter, ret, tick. cbn. rewrite Nat.add_0_r.
    reflexivity.
Defined.

(* ===================================================================== *)
(** ** Property paths *)
(* ===================================================================== *)

Lemma split_dot_from_app acc p q :
  JS.split_dot_from acc (p ++ 46%N :: q)
  = JS.split_dot_from acc p ++ JS.split_dot q.
Proof.
  revert acc. induction p as [|c p IH]; intros acc; cbn.
  - reflexivity.
  - destruct (c =? 46)%N; cbn; rewrite IH; reflexivity.
Qed.

Lemma split_dot_from_cons acc s :
  exists key rest, JS.split_dot_from acc s = key :: rest.
Proof.
  revert acc. induction s as [|c s IH]; intros acc; cbn; [eauto|].
  destruct (c =? 46)%N; eauto.
Qed.

Lemma getPropValue_loop_undefined keys :
  getPropValue_loop VUndefined keys = VUndefined.
Proof. destruct keys; reflexivity. Qed.

Lemma getPropValue_loop_app obj keys1 keys2 :
  getPropValue_loop obj (keys1 ++ keys2)
  = getPropValue_loop (getPropValue_loop obj keys1) keys2.
Proof.
  revert obj. induction keys1 as [|key keys1 IH]; intros obj; cbn;
    [reflexivity|].
  destruct obj; try (symmetry; apply getPropValue_loop_undefined).
  destruct (lookupField key fields);
    [apply IH | symmetry; apply getPropValue_loop_undefined].
Qed.

(** X1: resolving the path [p.q] is resolving [q] in what [p] resolves to;
    when [p] resolves to nothing, so does [p.q]. *)
Theorem getPropValue_compose :
  forall (obj : value) (p q : jsstring),
    getPropValue obj (p ++ js "." ++ q) = getPropValue (getPropValue obj p) q.
Proof.
  intros obj p q. unfold getPropValue.
  change (p ++ js "." ++ q) with (p ++ 46%N :: q).
  unfold JS.split_dot. rewrite split_dot_from_app.
  apply getPropValue_loop_app.
Qed.

(** X2: a value that is not an object ([undefined], [null], a boolean, a
    number, a string) has no property: every path, the empty one included,
    resolves to [undefined] on it, without an error. *)
Theorem getPropValue_of_non_object :
  forall (v : value) (path : jsstring),
    isObject v = false -> getPropValue v path = VUndefined.
Proof.
  intros v path Hv. unfold getPropValue, JS.split_dot.
  destruct (split_dot_from_cons [] path) as (key & rest & ->).
  destruct v; try reflexivity. discriminate Hv.
Qed.

Lemma getPropValue_of_non_object_witness :
  isObject VNull = false /\ getPropValue VNull (js "user.name") = VUndefined.
Proof.
  split; [reflexivity|].
  apply (getPropValue_of_non_object VNull (js "user.name")). reflexivity.
Defined.

(* ===================================================================== *)
(** ** Escaping *)
(* ===================================================================== *)

Lemma RegExp_test_escapeRegex t s :
  JS.RegExp_test (escapeRegex t) s = true <-> occursIn t s.
Proof.
  unfold JS.RegExp_test, occursIn.
  rewrite <- (app_nil_r (escapeRegex t)), parsePattern_escapeRegex.
  simpl. rewrite matchFrom_positions. split.
  - intros (pre & post & -> & H). apply matchHere_literals in H as (s' & -> & _).
    eauto.
  - intros (pre & post & ->). exists pre, (t ++ post). split; [reflexivity|].
    apply matchHere_literals. eauto.
Qed.

(** X3: testing a string against the escaped form of a token is testing
    whether the token is a substring of it: the expression built at lines
    136-137 decides the same as [propValue.includes(searchTerm)]. *)
Theorem escaped_pattern_is_substring_test :
  forall t s : jsstring, JS.RegExp_test (escapeRegex t) s = JS.includes s t.
Proof.
  intros t s. apply eq_true_iff_eq.
  rewrite RegExp_test_escapeRegex, includes_spec. reflexivity.
Qed.

(** X4: whatever the token, its escaped form is a well-formed pattern, and
    reading that pattern back gives the code units of the token, each one
    as a literal: escaping loses nothing and leaves no metacharacter
    active. *)
Theorem escapeRegex_parses_back :
  forall t : jsstring,
    JS.parsePattern (escapeRegex t) = Some (List.map JS.Lit t).
Proof.
  intros t. rewrite <- (app_nil_r (escapeRegex t)), parsePattern_escapeRegex.
  cbn. rewrite app_nil_r. reflexivity.
Qed.

(* ===================================================================== *)
(** ** Trimming and splitting of the term *)
(* ===================================================================== *)

Lemma trimStart_shape s :
  JS.trimStart s = []
  \/ exists c r, JS.trimStart s = c :: r /\ JS.isWhiteSpace c = false.
Proof.
  induction s as [|c s IH]; cbn; [left; reflexivity|].
  destruct (JS.isWhiteSpace c) eqn:Hc; [exact IH|].
  right. eauto.
Qed.

Lemma trimStart_fixed c r :
  JS.isWhiteSpace c = false -> JS.trimStart (c :: r) = c :: r.
Proof. intros Hc. cbn. rewrite Hc. reflexivity. Qed.

Lemma trimStart_idempotent s : JS.trimStart (JS.trimStart s) = JS.trimStart s.
Proof.
  destruct (trimStart_shape s) as [-> | (c & r & -> & Hc)];
    [reflexivity | apply trimStart_fixed, Hc].
Qed.

Lemma trimStart_nil_iff s :
  JS.trimStart s = [] <-> forallb JS.isWhiteSpace s = true.
Proof.
  induction s as [|c s IH]; cbn; [tauto|].
  destruct (JS.isWhiteSpace c); cbn; [exact IH|].
  split; discriminate.
Qed.

Lemma trimStart_snoc l c :
  JS.isWhiteSpace c = false -> exists l', JS.trimStart (l ++ [c]) = l' ++ [c].
Proof.
  intros Hc. induction l as [|x l IH]; cbn.
  - rewrite Hc. exists []. reflexivity.
  - destruct (JS.isWhiteSpace x); [exact IH|].
    exists (x :: l). reflexivity.
Qed.

Lemma trimEnd_keeps_head c r :
  JS.isWhiteSpace c = false -> exists r', JS.trimEnd (c :: r) = c :: r'.
Proof.
  intros Hc. unfold JS.trimEnd. cbn [rev].
  destruct (trimStart_snoc (rev r) c Hc) as [l' ->].
  rewrite rev_app_distr. cbn. eauto.
Qed.

Lemma trim_shape s :
  JS.trim s = []
  \/ exists c r, JS.trim s = c :: r /\ JS.isWhiteSpace c = false.
Proof.
  unfold JS.trim.
  destruct (trimStart_shape s) as [-> | (c & r & -> & Hc)];
    [left; reflexivity|].
  right. destruct (trimEnd_keeps_head c r Hc) as [r' ->]. eauto.
Qed.

Lemma forallb_rev {A} (f : A -> bool) l : forallb f (rev l) = forallb f l.
Proof.
  induction l as [|x l IH]; cbn; [reflexivity|].
  rewrite forallb_app, IH. cbn. rewrite andb_true_r. apply andb_comm.
Qed.

Lemma trim_nil_iff s :
  JS.trim s = [] <-> forallb JS.isWhiteSpace s = true.
Proof.
  split.
  - unfold JS.trim, JS.trimEnd. intros H.
    destruct (trimStart_shape s) as [Hs | (c & r & Hs & Hc)].
    + apply trimStart_nil_iff, Hs.
    + rewrite Hs in H. destruct (trimEnd_keeps_head c r Hc) as [r' Hr'].
      unfold JS.trimEnd in Hr'. rewrite Hr' in H. discriminate H.
  - intros H. apply trimStart_nil_iff in H. unfold JS.trim. rewrite H.
    reflexivity.
Qed.

Lemma trimEnd_idempotent s : JS.trimEnd (JS.trimEnd s) = JS.trimEnd s.
Proof.
  unfold JS.trimEnd. rewrite rev_involutive, trimStart_idempotent.
  reflexivity.
Qed.

Lemma trim_idempotent s : JS.trim (JS.trim s) = JS.trim s.
Proof.
  destruct (trim_shape s) as [-> | (c & r & Hs & Hc)]; [reflexivity|].
  unfold JS.trim at 1. rewrite Hs, (trimStart_fixed c r Hc), <- Hs.
  unfold JS.trim. apply trimEnd_idempotent.
Qed.

Lemma split_ws_from_head skip acc s :
  exists pre rest, JS.split_ws_from skip acc s = rev (pre ++ acc) :: rest.
Proof.
  revert skip acc. induction s as [|c s IH]; intros skip acc; cbn.
  - exists [], []. reflexivity.
  - destruct (JS.isWhiteSpace c).
    + destruct skip; [apply IH|]. exists [], (JS.split_ws_from true [] s).
      reflexivity.
    + destruct (IH false (c :: acc)) as (pre & rest & ->).
      exists (pre ++ [c]), rest. rewrite <- app_assoc. reflexivity.
Qed.

Lemma searchTermsOf_nonempty term :
  JS.nonEmpty (JS.trim term) = true ->
  exists t rest, searchTermsOf term = t :: rest.
Proof.
  intros Hne. unfold searchTermsOf.
  destruct (trim_shape term) as [H | (c & r & H & Hc)];
    [rewrite H in Hne; discriminate Hne|].
  rewrite H. unfold JS.split_ws. cbn [JS.split_ws_from]. rewrite Hc.
  destruct (split_ws_from_head false [c] r) as (pre & rest & ->).
  cbn [List.filter].
  assert (Hp : JS.nonEmpty (rev (pre ++ [c])) = true).
  { rewrite rev_app_distr. reflexivity. }
  rewrite Hp. eauto.
Qed.

(* ===================================================================== *)
(** ** More on the exact-match filter *)
(* ===================================================================== *)

(** For a term whose trimmed form is not empty, the filter is the test
    [keepsExactMatch] applied to each candidate. *)
Lemma filterExactMatches_nonblank orama results term props preserveSpaces :
  JS.nonEmpty (JS.trim term) = true ->
  filterExactMatches orama results term props preserveSpaces
  = List.filter
      (fun '(docId, _) => keepsExactMatch orama term props preserveSpaces docId)
      results.
Proof.
  intros Hne. unfold filterExactMatches. cbv zeta. rewrite Hne. cbn [negb].
  fold (searchTermsOf term).
  destruct (searchTermsOf_nonempty term Hne) as (t & rest & Hts).
  rewrite Hts. cbn [length Nat.eqb]. rewrite <- Hts.
  apply filter_ext. intros [docId score]. unfold keepsExactMatch. cbv zeta.
  destruct (truthy (documentsStore_get (data_docs orama) docId)); reflexivity.
Qed.

(** X5: a term that is not blank always yields at least one token, so the
    early [return results] of lines 53-55 is never taken: the candidates of
    such a term always go through the per-document test. *)
Theorem nonblank_term_has_tokens :
  forall term : jsstring,
    JS.nonEmpty (JS.trim term) = true ->
    (length (List.filter JS.nonEmpty (JS.split_ws (JS.trim term))) =? 0)%nat
    = false
    /\ forall orama results props preserveSpaces,
         filterExactMatches orama results term props preserveSpaces
         = List.filter
             (fun '(docId, _) =>
                keepsExactMatch orama term props preserveSpaces docId)
             results.
Proof.
  intros term Hne. split.
  - destruct (searchTermsOf_nonempty term Hne) as (t & rest & Hts).
    unfold searchTermsOf in Hts. rewrite Hts. reflexivity.
  - intros. apply filterExactMatches_nonblank, Hne.
Qed.

Lemma nonblank_term_has_tokens_witness :
  (length (List.filter JS.nonEmpty (JS.split_ws (JS.trim (js " c.at  sat "))))
   =? 0)%nat = false
  /\ forall orama results props preserveSpaces,
       filterExactMatches orama results (js " c.at  sat ") props preserveSpaces
       = List.filter
           (fun '(docId, _) =>
              keepsExactMatch orama (js " c.at  sat ") props preserveSpaces
                docId)
           results.
Proof.
  apply (nonblank_term_has_tokens (js " c.at  sat ")). reflexivity.
Defined.

(** X6: for a term that is not blank, a candidate is kept exactly when it is
    a candidate, its document is in the store, and some searched property
    of the document passes [matchesExactTerm]; a candidate whose document is
    missing is dropped. *)
Theorem filterExactMatches_membership :
  forall (orama : Orama) (results : list TokenScore) (term : jsstring)
         (props : list jsstring) (preserveSpaces : bool) (docId : Z)
         (score : float),
    JS.nonEmpty (JS.trim term) = true ->
    In (docId, score)
       (filterExactMatches orama results term props preserveSpaces)
    <-> In (docId, score) results
        /\ exists doc,
             data_docs orama !! docId = Some doc
             /\ truthy doc = true
             /\ exists prop,
                  In prop props
                  /\ matchesExactTerm doc prop term (searchTermsOf term)
                       preserveSpaces (JS.startsWith term (js " "))
                       (JS.endsWith term (js " ")) = true.
Proof.
  intros orama results term props ps docId score Hne.
  rewrite (filterExactMatches_nonblank orama results term props ps Hne).
  rewrite filter_In. unfold keepsExactMatch, documentsStore_get. cbv zeta.
  rewrite andb_true_iff, existsb_exists.
  destruct (data_docs orama !! docId) as [doc|]; cbn [default].
  - split.
    + intros (Hin & Ht & Hex). split; [exact Hin|]. exists doc. auto.
    + intros (Hin & doc' & [= <-] & Ht & Hex). auto.
  - split.
    + intros (_ & Ht & _). discriminate Ht.
    + intros (_ & doc & Hdoc & _). discriminate Hdoc.
Qed.

Lemma filterExactMatches_membership_witness :
  In (1%Z, 1%float)
     (filterExactMatches catStore catCandidates (js "cat") [js "title"] false)
  <-> In (1%Z, 1%float) catCandidates
      /\ exists doc,
           data_docs catStore !! 1%Z = Some doc
           /\ truthy doc = true
           /\ exists prop,
                In prop [js "title"]
                /\ matchesExactTerm doc prop (js "cat") (searchTermsOf (js "cat"))
                     false (JS.startsWith (js "cat") (js " "))
                     (JS.endsWith (js "cat") (js " ")) = true.
Proof.
  apply (filterExactMatches_membership catStore catCandidates (js "cat")
           [js "title"] false 1%Z 1%float).
  reflexivity.
Defined.

(** X7: a blank term (empty or white space only) filters nothing when
    [preserveSpaces] is off: the candidates come back unchanged, those whose
    document is missing from the store included. *)
Theorem blank_term_keeps_everything :
  forall (orama : Orama) (results : list TokenScore) (term : jsstring)
         (props : list jsstring),
    forallb JS.isWhiteSpace term = true ->
    filterExactMatches orama results term props false = results.
Proof.
  intros orama results term props Hws. unfold filterExactMatches. cbv zeta.
  apply trim_nil_iff in Hws. rewrite Hws. reflexivity.
Qed.

Lemma blank_term_keeps_everything_witness :
  filterExactMatches oneDocStore twoCandidates (js "   ") [js "title"] false
  = twoCandidates.
Proof.
  apply (blank_term_keeps_everything oneDocStore twoCandidates (js "   ")
           [js "title"]).
  reflexivity.
Defined.

Lemma existsb_pointwise {A} (f g : A -> bool) l :
  (forall x, f x = g x) -> existsb f l = existsb g l.
Proof.
  intros H. induction l as [|x l IH]; cbn; [reflexivity|].
  rewrite H, IH. reflexivity.
Qed.

Lemma existsb_implies {A} (f g : A -> bool) l :
  (forall x, f x = true -> g x = true) ->
  existsb f l = true -> existsb g l = true.
Proof.
  intros H. rewrite !existsb_exists. intros (x & Hx & Hf). eauto.
Qed.

Lemma filter_implies_sublist {A} (f g : A -> bool) l :
  (forall x, f x = true -> g x = true) ->
  sublist (List.filter f l) (List.filter g l).
Proof.
  intros H. induction l as [|x l IH]; cbn; [constructor|].
  destruct (f x) eqn:Hf.
  - rewrite (H x Hf). apply sublist_skip, IH.
  - destruct (g x); [apply sublist_cons, IH | exact IH].
Qed.

Lemma matchesExactTerm_without_preserveSpaces doc prop term term' tokens
    lead trail lead' trail' :
  matchesExactTerm doc prop term tokens false lead trail
  = matchesExactTerm doc prop term' tokens false lead' trail'.
Proof. unfold matchesExactTerm. destruct (getPropValue doc prop); reflexivity. Qed.

(** X8: without [preserveSpaces], white space around the term is
    irrelevant: the filter gives the same result for a term and for its
    trimmed form. *)
Theorem filterExactMatches_ignores_outer_spaces :
  forall (orama : Orama) (results : list TokenScore) (term : jsstring)
         (props : list jsstring),
    filterExactMatches orama results term props false
    = filterExactMatches orama results (JS.trim term) props false.
Proof.
  intros orama results term props. unfold filterExactMatches. cbv zeta.
  rewrite trim_idempotent.
  destruct (negb (JS.nonEmpty (JS.trim term))); [reflexivity|].
  destruct (length _ =? 0)%nat; [reflexivity|].
  apply filter_ext. intros [docId score].
  destruct (negb (truthy _)); [reflexivity|].
  apply existsb_pointwise. intros prop.
  apply matchesExactTerm_without_preserveSpaces.
Qed.

Lemma matchesExactTerm_preserveSpaces_stricter doc prop term tokens lead trail :
  matchesExactTerm doc prop term tokens true lead trail = true ->
  matchesExactTerm doc prop term tokens false lead trail = true.
Proof.
  unfold matchesExactTerm. destruct (getPropValue doc prop); try discriminate.
  cbn [andb]. destruct (lead || trail); [|tauto].
  destruct (negb (JS.includes s term)); [discriminate | tauto].
Qed.

(** X9: [preserveSpaces] only removes: whatever the term, what the filter
    keeps with [preserveSpaces] on is a subsequence of what it keeps with
    [preserveSpaces] off. *)
Theorem preserveSpaces_only_removes :
  forall (orama : Orama) (results : list TokenScore) (term : jsstring)
         (props : list jsstring),
    sublist (filterExactMatches orama results term props true)
      (filterExactMatches orama results term props false).
Proof.
  intros orama results term props. unfold filterExactMatches. cbv zeta.
  destruct (negb (JS.nonEmpty (JS.trim term))).
  - cbn [andb]. destruct (_ || _).
    + unfold filterBySpaceMatch. apply array_filter_sublist.
    + reflexivity.
  - destruct (length _ =? 0)%nat; [reflexivity|].
    apply filter_implies_sublist. intros [docId score].
    destruct (negb (truthy _)); [discriminate|].
    apply existsb_implies. intros prop.
    apply matchesExactTerm_preserveSpaces_stricter.
Qed.

(** X10: searching more properties only adds: when every property of one
    list is in another, what the filter keeps for the first list is a
    subsequence of what it keeps for the second. *)
Theorem more_properties_keep_more :
  forall (orama : Orama) (results : list TokenScore) (term : jsstring)
         (props props' : list jsstring) (preserveSpaces : bool),
    (forall prop, In prop props -> In prop props') ->
    sublist (filterExactMatches orama results term props preserveSpaces)
      (filterExactMatches orama results term props' preserveSpaces).
Proof.
  intros orama results term props props' ps Hsub.
  assert (Hex : forall f : jsstring -> bool,
             existsb f props = true -> existsb f props' = true).
  { intros f. rewrite !existsb_exists. intros (x & Hx & Hf). eauto. }
  unfold filterExactMatches, filterBySpaceMatch. cbv zeta.
  destruct (negb (JS.nonEmpty (JS.trim term))).
  - destruct (ps && _); [|reflexivity].
    apply filter_implies_sublist. intros [docId score].
    destruct (negb (truthy _)); [discriminate | apply Hex].
  - destruct (length _ =? 0)%nat; [reflexivity|].
    apply filter_implies_sublist. intros [docId score].
    destruct (negb (truthy _)); [discriminate | apply Hex].
Qed.

Lemma more_properties_keep_more_witness :
  sublist
    (filterExactMatches catStore catCandidates (js "cat") [js "title"] false)
    (filterExactMatches catStore catCandidates (js "cat")
       [js "body"; js "title"] false).
Proof.
  apply (more_properties_keep_more catStore catCandidates (js "cat")
           [js "title"] [js "body"; js "title"] false).
  intros prop [<-|[]]. right. left. reflexivity.
Defined.

(** X11: each candidate is judged on its own: filtering a concatenation of
    candidate sequences is concatenating the filtered sequences, whatever
    else is in the sequence. *)
Theorem filterExactMatches_app :
  forall (orama : Orama) (results1 results2 : list TokenScore)
         (term : jsstring) (props : list jsstring) (preserveSpaces : bool),
    filterExactMatches orama (results1 ++ results2) term props preserveSpaces
    = filterExactMatches orama results1 term props preserveSpaces
      ++ filterExactMatches orama results2 term props preserveSpaces.
Proof.
  intros orama results1 results2 term props ps.
  destruct (filterExactMatches_shape orama term props ps) as [keep Hkeep].
  rewrite !Hkeep. apply List.filter_app.
Qed.

Lemma forallb_Permutation {A} (f : A -> bool) l l' :
  l ≡ₚ l' -> forallb f l = forallb f l'.
Proof.
  induction 1 as [|x l l' _ IH|x y l|l l' l'' _ IH1 _ IH2]; cbn.
  - reflexivity.
  - rewrite IH. reflexivity.
  - rewrite !andb_assoc, (andb_comm (f y)). reflexivity.
  - congruence.
Qed.

Lemma searchTermsOf_blank term :
  JS.nonEmpty (JS.trim term) = false -> searchTermsOf term = [].
Proof.
  intros H. unfold searchTermsOf. destruct (JS.trim term); [reflexivity|].
  discriminate H.
Qed.

Lemma matchesExactTerm_tokens doc prop term term' tokens tokens' lead trail
    lead' trail' :
  tokens ≡ₚ tokens' ->
  matchesExactTerm doc prop term tokens false lead trail
  = matchesExactTerm doc prop term' tokens' false lead' trail'.
Proof.
  intros Hperm. unfold matchesExactTerm.
  destruct (getPropValue doc prop); try reflexivity.
  cbn [andb]. apply forallb_Permutation, Hperm.
Qed.

(** X26: without [preserveSpaces] the filter depends on the term only
    through its tokens, whatever their order: two terms with the same
    tokens up to order (for instance "the cat" and " cat   the ") keep the
    same candidates. *)
Theorem exact_filter_depends_on_tokens :
  forall (orama : Orama) (results : list TokenScore) (term term' : jsstring)
         (props : list jsstring),
    List.filter JS.nonEmpty (JS.split_ws (JS.trim term))
    ≡ₚ List.filter JS.nonEmpty (JS.split_ws (JS.trim term')) ->
    filterExactMatches orama results term props false
    = filterExactMatches orama results term' props false.
Proof.
  intros orama results term term' props Hperm.
  fold (searchTermsOf term) in Hperm. fold (searchTermsOf term') in Hperm.
  destruct (JS.nonEmpty (JS.trim term)) eqn:Hne;
    destruct (JS.nonEmpty (JS.trim term')) eqn:Hne'.
  - rewrite !filterExactMatches_nonblank by assumption.
    apply filter_ext. intros [docId score]. unfold keepsExactMatch. cbv zeta.
    f_equal. apply existsb_pointwise. intros prop.
    apply matchesExactTerm_tokens, Hperm.
  - destruct (searchTermsOf_nonempty term Hne) as (t & rest & Ht).
    rewrite Ht, (searchTermsOf_blank term' Hne') in Hperm.
    apply Permutation_nil_r in Hperm. discriminate Hperm.
  - destruct (searchTermsOf_nonempty term' Hne') as (t & rest & Ht).
    rewrite Ht, (searchTermsOf_blank term Hne) in Hperm.
    symmetry in Hperm. apply Permutation_nil_r in Hperm. discriminate Hperm.
  - unfold filterExactMatches. cbv zeta. rewrite Hne, Hne'. reflexivity.
Qed.

Lemma exact_filter_depends_on_tokens_witness :
  filterExactMatches catStore catCandidates (js "the cat") [js "title"] false
  = filterExactMatches catStore catCandidates (js " cat   the ") [js "title"]
      false.
Proof.
  apply (exact_filter_depends_on_tokens catStore catCandidates (js "the cat")
           (js " cat   the ") [js "title"]).
  apply (Permutation_swap (js "cat") (js "the") []).
Defined.

(* ===================================================================== *)
(** ** The searchable properties and their cache *)
(* ===================================================================== *)

(** X12: once computed, the searchable properties are served from the cache:
    any later resolution on the instance, even against an index whose schema
    has changed, returns the cached list, calls nothing and changes
    nothing. *)
Theorem searchable_properties_are_cached :
  forall (c c' : Components) (s s1 : State) (propertiesToSearch : list jsstring),
    resolvePropertiesToSearch c s = (Normal propertiesToSearch, s1) ->
    resolvePropertiesToSearch c' s1 = (Normal propertiesToSearch, s1).
Proof.
  intros c c' s s1 ps Hres.
  destruct (resolvePropertiesToSearch_effect c s ps s1 Hres)
    as (_ & _ & _ & _ & Hcache & _).
  unfold resolvePropertiesToSearch. rewrite bind_run. cbn [gets].
  rewrite Hcache. reflexivity.
Qed.

Lemma searchable_properties_are_cached_witness :
  resolvePropertiesToSearch (exampleComponents mixedSchema []) resolvedState
  = (Normal [js "title"; js "body"], resolvedState).
Proof.
  apply (searchable_properties_are_cached (exampleComponents titleBody [])
           (exampleComponents mixedSchema []) (initialState catStore ∅)
           resolvedState [js "title"; js "body"]).
  vm_compute. reflexivity.
Defined.

Lemma filterM_typed (types : list (jsstring * jsstring)) props s :
  Forall (fun prop => is_Some (lookupField prop types)) props ->
  filterM
    (fun prop =>
       match lookupField prop types with
       | Some ty => ret (JS.startsWith ty (js "string"))
       | None => throw TypeError
       end)
    props s
  = (Normal
       (List.filter
          (fun prop =>
             match lookupField prop types with
             | Some ty => JS.startsWith ty (js "string")
             | None => false
             end)
          props), s).
Proof.
  induction 1 as [|prop props [ty Hty] _ IH]; [reflexivity|].
  cbn [filterM List.filter]. rewrite bind_run, Hty. cbn [ret].
  rewrite bind_run, IH. reflexivity.
Qed.

(** X13: on a cold cache the searchable properties are those the index
    lists whose type starts with "string" (so [string] and [string[]], not
    [number]), in the order the index lists them; they are stored in the
    cache, and the index is asked for its schema twice and nothing else. *)
Theorem cold_cache_computes_string_properties :
  forall (c : Components) (s : State),
    caches_propertiesToSearch (st_orama s) = None ->
    Forall
      (fun prop =>
         is_Some (lookupField prop (index_getSearchablePropertiesWithTypes c)))
      (index_getSearchableProperties c) ->
    resolvePropertiesToSearch c s
    = (Normal (stringProperties c),
       mkState
         (mkOrama (Some (stringProperties c)) (data_docs (st_orama s)))
         (st_objects s)
         (st_indexCalls s
          ++ [CallGetSearchablePropertiesWithTypes; CallGetSearchableProperties])
         (st_clock s) (st_clockReads s)).
Proof.
  intros c [[cache docs] objects calls clock reads] Hcold Htyped.
  cbn in Hcold. subst cache.
  unfold resolvePropertiesToSearch. rewrite bind_run. cbn. rewrite bind_run.
  rewrite (filterM_typed _ _ _ Htyped). cbn.
  rewrite <- app_assoc. reflexivity.
Qed.

Lemma cold_cache_computes_string_properties_witness :
  resolvePropertiesToSearch (exampleComponents mixedSchema [])
    (initialState catStore ∅)
  = (Normal (stringProperties (exampleComponents mixedSchema [])),
     mkState
       (mkOrama (Some (stringProperties (exampleComponents mixedSchema [])))
          (data_docs (st_orama (initialState catStore ∅))))
       (st_objects (initialState catStore ∅))
       (st_indexCalls (initialState catStore ∅)
        ++ [CallGetSearchablePropertiesWithTypes; CallGetSearchableProperties])
       (st_clock (initialState catStore ∅))
       (st_clockReads (initialState catStore ∅)))
  /\ stringProperties (exampleComponents mixedSchema [])
     = [js "title"; js "tags"].
Proof.
  split; [|reflexivity].
  apply (cold_cache_computes_string_properties
           (exampleComponents mixedSchema []) (initialState catStore ∅)).
  - reflexivity.
  - repeat constructor; eexists; reflexivity.
Defined.

(* ===================================================================== *)
(** ** The term path of candidate resolution *)
(* ===================================================================== *)

Lemma forEach_checkProperty_ok propertiesToSearch properties s :
  Forall (fun q => In q propertiesToSearch) properties ->
  forEach (checkProperty propertiesToSearch) properties s = (Normal tt, s).
Proof.
  induction 1 as [|q l Hq _ IH]; [reflexivity|].
  cbn [forEach]. rewrite bind_run. unfold checkProperty at 1.
  apply array_includes_In in Hq. rewrite Hq. cbn. exact IH.
Qed.

(** Lines 208-216 on a valid [properties]. *)
Lemma validation_passes params ps s :
  validProperties (SearchParams.properties params) ps ->
  match SearchParams.properties params with
  | Some (PropertiesList properties) =>
      forEach
        (fun prop =>
           if negb (array_includes ps prop)
           then throw (createError (js "UNKNOWN_INDEX")
                         [prop; JS.join (js ", ") ps])
           else ret tt)
        properties ;;
      ret (List.filter (fun prop => array_includes properties prop) ps)
  | _ => ret ps
  end s
  = (Normal (propertiesUsed (SearchParams.properties params) ps), s).
Proof.
  unfold validProperties, propertiesUsed.
  destruct (SearchParams.properties params) as [[|l]|]; try reflexivity.
  intros Hvalid. rewrite bind_run.
  change (forEach _ l s) with (forEach (checkProperty ps) l s).
  rewrite (forEach_checkProperty_ok ps l s Hvalid). reflexivity.
Qed.

(** What the term path (lines 232-262) does once the searchable properties
    are known and the explicit list, if any, is valid. *)
Lemma innerFullTextSearch_term_path c params language s s1 ps :
  resolvePropertiesToSearch c s = (Normal ps, s1) ->
  validProperties (SearchParams.properties params) ps ->
  termTruthy (SearchParams.term params)
  || bool_decide (is_Some (SearchParams.properties params)) = true ->
  exists s',
    innerFullTextSearch c params language s
    = (Normal
         (let where_ := default (VObject []) (SearchParams.where_ params) in
          let term' :=
            if termTruthy (SearchParams.term params)
            then default [] (SearchParams.term params) else [] in
          let used := propertiesUsed (SearchParams.properties params) ps in
          let found :=
            index_search c term' language used
              (default false (SearchParams.exact params))
              (default 0%Z (SearchParams.tolerance params))
              (default (VObject []) (SearchParams.boost params))
              (completed (suppliedRelevance (SearchParams.relevance params) s1))
              (count (st_orama s1))
              (if (0 <? length (Object_keys where_))%nat
               then Some (index_searchByWhereClause c where_ language)
               else None)
              (default 1%float (SearchParams.threshold params)) in
          if default false (SearchParams.exact params)
             && termTruthy (SearchParams.term params)
          then filterExactMatches (st_orama s1) found
                 (default [] (SearchParams.term params)) used
                 (if default false (SearchParams.exact params)
                  then default false (SearchParams.preserveSpaces params)
                  else false)
          else found), s')
    /\ st_indexCalls s'
       = st_indexCalls s1
         ++ whereCalls (default (VObject []) (SearchParams.where_ params))
         ++ [CallSearch
               (if termTruthy (SearchParams.term params)
                then default [] (SearchParams.term params) else [])
               (propertiesUsed (SearchParams.properties params) ps)]
    /\ st_orama s' = st_orama s1.
Proof.
  intros Hres Hvalid Hterm.
  unfold innerFullTextSearch. cbv zeta.
  rewrite bind_run, Hres, bind_run, (validation_passes params ps s1 Hvalid).
  rewrite bind_run, Hterm. unfold whereCalls.
  set (where_ := default (VObject []) (SearchParams.where_ params)).
  destruct (0 <? length (Object_keys where_))%nat.
  - rewrite bind_run. cbn [logIndexCall modify ret].
    set (s2 := mkState _ _ _ _ _).
    rewrite bind_run. cbn [gets]. rewrite bind_run.
    destruct (applyDefault_run (SearchParams.relevance params) s2)
      as (s3 & -> & Hobj & _ & Horama & Hcalls & _).
    rewrite bind_run. unfold readObject at 1. cbn [gets].
    rewrite (lookup_total_correct _ _ _ Hobj).
    rewrite bind_run. cbn [logIndexCall modify].
    destruct (default false (SearchParams.exact params)
              && termTruthy (SearchParams.term params));
      [rewrite bind_run; cbn [gets ret st_orama] | cbn [ret]];
      rewrite ?Horama;
      (eexists; split; [reflexivity|]; split; cbn;
       rewrite ?Hcalls; cbn; rewrite <- ?app_assoc; reflexivity).
  - cbn [ret]. rewrite bind_run. cbn [gets]. rewrite bind_run.
    destruct (applyDefault_run (SearchParams.relevance params) s1)
      as (s3 & -> & Hobj & _ & Horama & Hcalls & _).
    rewrite bind_run. unfold readObject at 1. cbn [gets].
    rewrite (lookup_total_correct _ _ _ Hobj).
    rewrite bind_run. cbn [logIndexCall modify].
    destruct (default false (SearchParams.exact params)
              && termTruthy (SearchParams.term params));
      [rewrite bind_run; cbn [gets ret st_orama] | cbn [ret]];
      rewrite ?Horama;
      (eexists; split; [reflexivity|]; split; cbn;
       rewrite ?Hcalls; cbn; rewrite <- ?app_assoc; reflexivity).
Qed.

(** X14: on the term path the index is queried in a fixed way: one
    where-clause search if the where-clause has a key, then exactly one
    scored search; with an explicit [properties] list the scored search
    runs on the searchable properties that are in the list, in the order of
    the searchable set, whatever the order and the repetitions of the
    list. *)
Theorem term_path_index_calls :
  forall (c : Components) (params : SearchParams.t) (language : option jsstring)
         (s s1 : State) (ps : list jsstring),
    resolvePropertiesToSearch c s = (Normal ps, s1) ->
    validProperties (SearchParams.properties params) ps ->
    termTruthy (SearchParams.term params)
    || bool_decide (is_Some (SearchParams.properties params)) = true ->
    st_indexCalls (snd (innerFullTextSearch c params language s))
    = st_indexCalls s1
      ++ whereCalls (default (VObject []) (SearchParams.where_ params))
      ++ [CallSearch
            (if termTruthy (SearchParams.term params)
             then default [] (SearchParams.term params) else [])
            (match SearchParams.properties params with
             | Some (PropertiesList l) =>
                 List.filter (fun prop => array_includes l prop) ps
             | _ => ps
             end)].
Proof.
  intros c params language s s1 ps Hres Hvalid Hterm.
  destruct (innerFullTextSearch_term_path c params language s s1 ps
              Hres Hvalid Hterm) as (s' & -> & Hcalls & _).
  exact Hcalls.
Qed.

Lemma term_path_index_calls_witness :
  st_indexCalls
    (snd (innerFullTextSearch (exampleComponents titleBody []) bodyTitleParams
            None (initialState catStore ∅)))
  = st_indexCalls resolvedState
    ++ whereCalls (default (VObject []) (SearchParams.where_ bodyTitleParams))
    ++ [CallSearch
          (if termTruthy (SearchParams.term bodyTitleParams)
           then default [] (SearchParams.term bodyTitleParams) else [])
          (match SearchParams.properties bodyTitleParams with
           | Some (PropertiesList l) =>
               List.filter (fun prop => array_includes l prop)
                 [js "title"; js "body"]
           | _ => [js "title"; js "body"]
           end)].
Proof.
  apply (term_path_index_calls (exampleComponents titleBody []) bodyTitleParams
           None (initialState catStore ∅) resolvedState
           [js "title"; js "body"]).
  - vm_compute. reflexivity.
  - do 3 (constructor; [cbn; auto|]). constructor.
  - reflexivity.
Defined.

(** X15: on the term path the candidates are what the scored search of the
    index returns, called with the defaults filled in (tolerance 0, no
    boost, threshold 1, a complete relevance object, the document count);
    exact mode can only remove some of them, never add or reorder, and
    without exact mode or without a term they are returned as they are. *)
Theorem term_path_candidates :
  forall (c : Components) (params : SearchParams.t) (language : option jsstring)
         (s s1 : State) (ps : list jsstring),
    resolvePropertiesToSearch c s = (Normal ps, s1) ->
    validProperties (SearchParams.properties params) ps ->
    termTruthy (SearchParams.term params)
    || bool_decide (is_Some (SearchParams.properties params)) = true ->
    exists candidates s',
      innerFullTextSearch c params language s = (Normal candidates, s')
      /\ sublist candidates (scoredSearch c params language ps s1)
      /\ (default false (SearchParams.exact params)
          && termTruthy (SearchParams.term params) = false ->
          candidates = scoredSearch c params language ps s1).
Proof.
  intros c params language s s1 ps Hres Hvalid Hterm.
  destruct (innerFullTextSearch_term_path c params language s s1 ps
              Hres Hvalid Hterm) as (s' & Hrun & _).
  cbv zeta in Hrun. fold (scoredSearch c params language ps s1) in Hrun.
  eexists _, s'. split; [exact Hrun|].
  destruct (default false (SearchParams.exact params)
            && termTruthy (SearchParams.term params)).
  - split; [|discriminate].
    destruct (filterExactMatches_shape (st_orama s1)
                (default [] (SearchParams.term params))
                (propertiesUsed (SearchParams.properties params) ps)
                (if default false (SearchParams.exact params)
                 then default false (SearchParams.preserveSpaces params)
                 else false)) as [keep ->].
    apply array_filter_sublist.
  - split; reflexivity.
Qed.

Lemma term_path_candidates_witness :
  exists candidates s',
    innerFullTextSearch (exampleComponents titleBody catCandidates)
      exactCatParams None (initialState catStore ∅)
    = (Normal candidates, s')
    /\ sublist candidates
         (scoredSearch (exampleComponents titleBody catCandidates)
            exactCatParams None [js "title"; js "body"] resolvedState)
    /\ (default false (SearchParams.exact exactCatParams)
        && termTruthy (SearchParams.term exactCatParams) = false ->
        candidates
        = scoredSearch (exampleComponents titleBody catCandidates)
            exactCatParams None [js "title"; js "body"] resolvedState).
Proof.
  apply (term_path_candidates (exampleComponents titleBody catCandidates)
           exactCatParams None (initialState catStore ∅) resolvedState
           [js "title"; js "body"]).
  - vm_compute. reflexivity.
  - exact I.
  - reflexivity.
Defined.

(** X16: [preserveSpaces] has no effect unless [exact] is true: candidate
    resolution runs the same way, result and final state, whatever
    [preserveSpaces] is set to. *)
Theorem preserveSpaces_needs_exact :
  forall (c : Components) (params : SearchParams.t) (language : option jsstring)
         (preserveSpaces : option bool) (s : State),
    default false (SearchParams.exact params) = false ->
    innerFullTextSearch c (with_preserveSpaces preserveSpaces params) language s
    = innerFullTextSearch c params language s.
Proof.
  intros c params language ps s Hexact.
  unfold innerFullTextSearch. cbv zeta.
  cbn [with_preserveSpaces SearchParams.term SearchParams.properties
       SearchParams.where_ SearchParams.exact SearchParams.preserveSpaces
       SearchParams.tolerance SearchParams.boost SearchParams.relevance
       SearchParams.threshold].
  destruct (default false (SearchParams.exact params));
    [discriminate Hexact | reflexivity].
Qed.

Lemma preserveSpaces_needs_exact_witness :
  innerFullTextSearch (exampleComponents titleBody catCandidates)
    (with_preserveSpaces (Some true) (termParams "cat")) None
    (initialState catStore ∅)
  = innerFullTextSearch (exampleComponents titleBody catCandidates)
      (termParams "cat") None (initialState catStore ∅).
Proof.
  apply (preserveSpaces_needs_exact (exampleComponents titleBody catCandidates)
           (termParams "cat") None (Some true) (initialState catStore ∅)).
  reflexivity.
Defined.

(* ===================================================================== *)
(** ** The path without a term *)
(* ===================================================================== *)

(** What lines 265-274 do for a query made of a where-clause only. *)
Lemma innerFullTextSearch_filter_only c params language s s1 ps :
  resolvePropertiesToSearch c s = (Normal ps, s1) ->
  termTruthy (SearchParams.term params) = false ->
  SearchParams.properties params = None ->
  (0 <? length (Object_keys
                  (default (VObject []) (SearchParams.where_ params))))%nat
  = true ->
  innerFullTextSearch c params language s
  = (Normal
       (match
          searchByGeoWhereClause c
            (default (VObject []) (SearchParams.where_ params))
        with
        | Some geoResults => geoResults
        | None =>
            List.map (fun k => (k, 0%float))
              (index_searchByWhereClause c
                 (default (VObject []) (SearchParams.where_ params)) language)
        end),
     mkState (st_orama s1) (st_objects s1)
       (st_indexCalls s1
        ++ [CallSearchByWhereClause
              (default (VObject []) (SearchParams.where_ params));
            CallSearchByGeoWhereClause
              (default (VObject []) (SearchParams.where_ params))])
       (st_clock s1) (st_clockReads s1)).
Proof.
  intros Hres Hterm Hprops Hwhere.
  unfold innerFullTextSearch. cbv zeta.
  rewrite bind_run, Hres, Hprops, Hwhere, Hterm. cbn.
  rewrite <- app_assoc. cbn.
  destruct (searchByGeoWhereClause c _); reflexivity.
Qed.

(** X17: a query with no term, no [properties] and a where-clause with a
    key: the where-clause search is issued, then the geo search; the geo
    results, when there are some, are the candidates as they are (scores
    included), otherwise the candidates are the filtered identifiers in the
    order of the filter set, each with score 0.  No scored search is made
    and the relevance object of the caller is not touched. *)
Theorem filter_only_candidates :
  forall (c : Components) (params : SearchParams.t) (language : option jsstring)
         (s s1 : State) (ps : list jsstring) (where_ : value),
    resolvePropertiesToSearch c s = (Normal ps, s1) ->
    termTruthy (SearchParams.term params) = false ->
    SearchParams.properties params = None ->
    SearchParams.where_ params = Some where_ ->
    Object_keys where_ <> [] ->
    fst (innerFullTextSearch c params language s)
    = Normal
        (match searchByGeoWhereClause c where_ with
         | Some geoResults => geoResults
         | None =>
             List.map (fun k => (k, 0%float))
               (index_searchByWhereClause c where_ language)
         end)
    /\ st_indexCalls (snd (innerFullTextSearch c params language s))
       = st_indexCalls s1
         ++ [CallSearchByWhereClause where_; CallSearchByGeoWhereClause where_]
    /\ st_objects (snd (innerFullTextSearch c params language s))
       = st_objects s.
Proof.
  intros c params language s s1 ps where_ Hres Hterm Hprops Hwhere Hkeys.
  assert (Hhas :
    (0 <? length (Object_keys
                    (default (VObject []) (SearchParams.where_ params))))%nat
    = true).
  { rewrite Hwhere. cbn. destruct (Object_keys where_);
      [congruence | reflexivity]. }
  rewrite (innerFullTextSearch_filter_only c params language s s1 ps
             Hres Hterm Hprops Hhas).
  rewrite Hwhere. cbn.
  destruct (resolvePropertiesToSearch_effect c s ps s1 Hres)
    as (_ & _ & _ & _ & _ & _ & Hobjs & _).
  auto.
Qed.

Lemma filter_only_candidates_witness :
  fst (innerFullTextSearch (filteringComponents [3%Z; 1%Z] None) whereOnlyParams
         None (initialState catStore ∅))
  = Normal
      (match searchByGeoWhereClause (filteringComponents [3%Z; 1%Z] None)
               yearClause with
       | Some geoResults => geoResults
       | None =>
           List.map (fun k => (k, 0%float))
             (index_searchByWhereClause (filteringComponents [3%Z; 1%Z] None)
                yearClause None)
       end)
  /\ st_indexCalls
       (snd (innerFullTextSearch (filteringComponents [3%Z; 1%Z] None)
               whereOnlyParams None (initialState catStore ∅)))
     = st_indexCalls resolvedState
       ++ [CallSearchByWhereClause yearClause;
           CallSearchByGeoWhereClause yearClause]
  /\ st_objects
       (snd (innerFullTextSearch (filteringComponents [3%Z; 1%Z] None)
               whereOnlyParams None (initialState catStore ∅)))
     = st_objects (initialState catStore ∅).
Proof.
  apply (filter_only_candidates (filteringComponents [3%Z; 1%Z] None)
           whereOnlyParams None (initialState catStore ∅) resolvedState
           [js "title"; js "body"] yearClause).
  - vm_compute. reflexivity.
  - reflexivity.
  - reflexivity.
  - reflexivity.
  - discriminate.
Defined.

(* ===================================================================== *)
(** ** What a search leaves alone *)
(* ===================================================================== *)

Lemma coreFrame_refl r0 s : coreFrame r0 s s.
Proof.
  repeat split; try reflexivity. exists []. rewrite app_nil_r. reflexivity.
Qed.

Lemma coreFrame_trans r0 s1 s2 s3 :
  coreFrame r0 s1 s2 -> coreFrame r0 s2 s3 -> coreFrame r0 s1 s3.
Proof.
  intros (Hd & Hc & Hr & [m Hm] & Ho) (Hd' & Hc' & Hr' & [m' Hm'] & Ho').
  repeat split; try congruence.
  - exists (m ++ m'). rewrite Hm', Hm, app_assoc. reflexivity.
  - intros r Hr0 Hsome. rewrite Ho'; [apply Ho; assumption | assumption|].
    rewrite Ho; assumption.
Qed.

Lemma withinFrame_ret r0 {A} (a : A) : withinFrame r0 (ret a).
Proof. intros s. apply coreFrame_refl. Qed.

Lemma withinFrame_throw r0 {A} (e : Error) : withinFrame r0 (@throw A e).
Proof. intros s. apply coreFrame_refl. Qed.

Lemma withinFrame_gets r0 {A} (f : State -> A) : withinFrame r0 (gets f).
Proof. intros s. apply coreFrame_refl. Qed.

Lemma withinFrame_bind r0 {A B} (m : M A) (f : A -> M B) :
  withinFrame r0 m -> (forall a, withinFrame r0 (f a)) ->
  withinFrame r0 (bind m f).
Proof.
  intros Hm Hf s. rewrite bind_run. specialize (Hm s).
  destruct (m s) as [[a|e] s']; cbn in *; [|exact Hm].
  eapply coreFrame_trans; [exact Hm | apply Hf].
Qed.

Lemma withinFrame_logIndexCall r0 call : withinFrame r0 (logIndexCall call).
Proof.
  intros s. repeat split; try reflexivity. exists [call]. reflexivity.
Qed.

Lemma withinFrame_set_cache r0 ps :
  withinFrame r0
    (modify (fun s => set_orama (mkOrama (Some ps) (data_docs (st_orama s))) s)).
Proof.
  intros s. repeat split; try reflexivity. exists []. cbn.
  rewrite app_nil_r. reflexivity.
Qed.

Lemma withinFrame_readObject r0 r : withinFrame r0 (readObject r).
Proof. intros s. apply coreFrame_refl. Qed.

Lemma withinFrame_applyDefault r0 : withinFrame r0 (applyDefault r0).
Proof.
  intros s.
  destruct (applyDefault_run r0 s)
    as (s' & -> & _ & Hother & Horama & Hcalls & Hclock & Hreads).
  cbn [snd]. repeat split; try congruence.
  - exists []. rewrite app_nil_r. exact Hcalls.
  - intros r Hr [o Ho]. apply Hother. destruct r0 as [r1|]; [congruence|].
    intros ->.
    apply (is_fresh (dom (st_objects s))). apply elem_of_dom. eauto.
Qed.

Lemma withinFrame_forEach r0 {A} (body : A -> M unit) l :
  (forall x, withinFrame r0 (body x)) -> withinFrame r0 (forEach body l).
Proof.
  intros Hbody. induction l as [|x l IH]; cbn [forEach].
  - apply withinFrame_ret.
  - apply withinFrame_bind; [apply Hbody | intros _; exact IH].
Qed.

Lemma withinFrame_filterM r0 {A} (p : A -> M bool) l :
  (forall x, withinFrame r0 (p x)) -> withinFrame r0 (filterM p l).
Proof.
  intros Hp. induction l as [|x l IH]; cbn [filterM].
  - apply withinFrame_ret.
  - apply withinFrame_bind; [apply Hp | intros keep].
    apply withinFrame_bind; [exact IH | intros rest; apply withinFrame_ret].
Qed.

Create HintDb within_frame.
#[local] Hint Resolve withinFrame_ret withinFrame_throw withinFrame_gets
  withinFrame_logIndexCall withinFrame_set_cache withinFrame_readObject
  withinFrame_applyDefault : within_frame.

Ltac within_frame :=
  repeat first
    [ solve [auto with within_frame]
    | apply withinFrame_bind; [|intros ?]
    | apply withinFrame_forEach; intros ?
    | apply withinFrame_filterM; intros ?
    | match goal with
      | |- withinFrame _ (match ?x with _ => _ end) => destruct x
      end ].

Lemma withinFrame_resolvePropertiesToSearch r0 c :
  withinFrame r0 (resolvePropertiesToSearch c).
Proof. unfold resolvePropertiesToSearch. within_frame. Qed.

#[local] Hint Resolve withinFrame_resolvePropertiesToSearch : within_frame.

Lemma withinFrame_innerFullTextSearch c params language :
  withinFrame (SearchParams.relevance params)
    (innerFullTextSearch c params language).
Proof. unfold innerFullTextSearch. cbv zeta. within_frame. Qed.

Lemma withinFrame_docsWithIdAndScore r0 arr docs :
  withinFrame r0 (docsWithIdAndScore arr docs).
Proof. unfold docsWithIdAndScore. within_frame. Qed.

#[local] Hint Resolve withinFrame_innerFullTextSearch
  withinFrame_docsWithIdAndScore : within_frame.

Lemma withinFrame_sortStage r0 c params arr :
  withinFrame r0 (sortStage c params arr).
Proof. unfold sortStage. within_frame. Qed.

#[local] Hint Resolve withinFrame_sortStage : within_frame.

Lemma withinFrame_unpaginated c params language :
  withinFrame (SearchParams.relevance params) (unpaginated c params language).
Proof. unfold unpaginated. within_frame. Qed.

(** The core logic is candidate resolution, sorting and pinning followed by
    pure work and one reading of the clock. *)
Lemma performSearchLogic_run c params language timeStart s :
  performSearchLogic c params language timeStart s
  = match unpaginated c params language s with
    | (Normal arr, s') =>
        (Normal (envelope c params arr (st_orama s')
                   (st_clock s' (st_clockReads s') - timeStart)%Z),
         tick 1 s')
    | (Throw e, s') => (Throw e, s')
    end.
Proof.
  unfold performSearchLogic. cbv zeta. rewrite bind_run.
  destruct (unpaginated c params language s) as [[arr|e] s']; [|reflexivity].
  rewrite bind_run. cbn [gets]. rewrite bind_run, getNanosecondsTime_run.
  reflexivity.
Qed.

(** X18: a search never writes the documents and never changes the clock it
    reads; it only appends to the calls made to the index; and the only
    objects of the heap it may write are the relevance object of the caller
    and objects it allocates itself.  This holds for the core logic and for
    [fullTextSearch] up to the point where it returns (a result, an error or
    a promise). *)
Theorem search_frame :
  forall (c : Components) (params : SearchParams.t)
         (language : option jsstring) (timeStart : Z) (s : State),
    (data_docs (st_orama (snd (performSearchLogic c params language timeStart s)))
     = data_docs (st_orama s)
     /\ st_clock (snd (performSearchLogic c params language timeStart s))
        = st_clock s
     /\ (exists more,
           st_indexCalls (snd (performSearchLogic c params language timeStart s))
           = st_indexCalls s ++ more)
     /\ (forall r,
           Some r <> SearchParams.relevance params ->
           is_Some (st_objects s !! r) ->
           st_objects (snd (performSearchLogic c params language timeStart s))
           !! r = st_objects s !! r))
    /\ (data_docs (st_orama (snd (fullTextSearch c params language s)))
        = data_docs (st_orama s)
        /\ st_clock (snd (fullTextSearch c params language s)) = st_clock s
        /\ (exists more,
              st_indexCalls (snd (fullTextSearch c params language s))
              = st_indexCalls s ++ more)
        /\ (forall r,
              Some r <> SearchParams.relevance params ->
              is_Some (st_objects s !! r) ->
              st_objects (snd (fullTextSearch c params language s)) !! r
              = st_objects s !! r)).
Proof.
  assert (Hcore : forall c params language timeStart s,
    let s' := snd (performSearchLogic c params language timeStart s) in
    data_docs (st_orama s') = data_docs (st_orama s)
    /\ st_clock s' = st_clock s
    /\ (exists more, st_indexCalls s' = st_indexCalls s ++ more)
    /\ (forall r,
          Some r <> SearchParams.relevance params ->
          is_Some (st_objects s !! r) ->
          st_objects s' !! r = st_objects s !! r)).
  { intros c params language timeStart s. cbv zeta.
    rewrite performSearchLogic_run.
    pose proof (withinFrame_unpaginated c params language s) as Hframe.
    destruct (unpaginated c params language s) as [[arr|e] s'];
      destruct Hframe as (Hd & Hc & _ & Hm & Ho); cbn; auto. }
  intros c params language timeStart s. split; [apply Hcore|].
  unfold fullTextSearch. rewrite bind_run, getNanosecondsTime_run. cbv zeta.
  destruct (hooksRegistered (beforeSearch c) || hooksRegistered (afterSearch c)).
  - cbn. repeat split; auto. exists []. rewrite app_nil_r. reflexivity.
  - rewrite bind_run.
    specialize (Hcore c params language (st_clock s (st_clockReads s))
                  (tick 1 s)).
    cbv zeta in Hcore.
    destruct (performSearchLogic c params language _ (tick 1 s))
      as [[r|e] s']; cbn in *; exact Hcore.
Qed.

(** X19: on an instance without registered hooks, a search reads the clock
    exactly twice when it succeeds, before and after the work, and [elapsed]
    is the formatted difference of the two readings; when it fails it has
    read the clock once. *)
Theorem elapsed_is_between_two_readings :
  forall (c : Components) (params : SearchParams.t)
         (language : option jsstring) (s : State),
    hooksRegistered (beforeSearch c) || hooksRegistered (afterSearch c) = false ->
    match fullTextSearch c params language s with
    | (Normal (Immediate r), s') =>
        Results.elapsed r
        = formatElapsedTime c
            (st_clock s (S (st_clockReads s)) - st_clock s (st_clockReads s))%Z
        /\ st_clockReads s' = (st_clockReads s + 2)%nat
    | (Normal (Pending _), _) => False
    | (Throw _, s') => st_clockReads s' = (st_clockReads s + 1)%nat
    end.
Proof.
  intros c params language s Hhooks.
  unfold fullTextSearch. rewrite bind_run, getNanosecondsTime_run. cbv zeta.
  rewrite Hhooks, bind_run.
  rewrite performSearchLogic_run.
  pose proof (withinFrame_unpaginated c params language (tick 1 s)) as Hframe.
  destruct (unpaginated c params language (tick 1 s)) as [[arr|e] s'];
    destruct Hframe as (_ & Hc & Hr & _); cbn in *.
  - rewrite Hc, Hr. split.
    + rewrite Nat.add_1_r. reflexivity.
    + lia.
  - exact Hr.
Qed.

Lemma elapsed_is_between_two_readings_witness :
  match
    fullTextSearch (exampleComponents titleBody twoCandidates)
      (termParams "cat") None (initialState catStore ∅)
  with
  | (Normal (Immediate r), s') =>
      Results.elapsed r
      = formatElapsedTime (exampleComponents titleBody twoCandidates)
          (st_clock (initialState catStore ∅)
             (S (st_clockReads (initialState catStore ∅)))
           - st_clock (initialState catStore ∅)
               (st_clockReads (initialState catStore ∅)))%Z
      /\ st_clockReads s' = (st_clockReads (initialState catStore ∅) + 2)%nat
  | (Normal (Pending _), _) => False
  | (Throw _, s') =>
      st_clockReads s' = (st_clockReads (initialState catStore ∅) + 1)%nat
  end.
Proof.
  apply (elapsed_is_between_two_readings
           (exampleComponents titleBody twoCandidates) (termParams "cat") None
           (initialState catStore ∅)).
  reflexivity.
Defined.

(* ===================================================================== *)
(** ** Preflight, sorting, failures *)
(* ===================================================================== *)

(** X20: a preflight query is the same query without the document fetch: it
    succeeds or fails as the query without [preflight] does, with the same
    [count], facets, groups and final state, and with no hit. *)
Theorem preflight_skips_only_the_fetch :
  forall (c : Components) (params : SearchParams.t)
         (language : option jsstring) (timeStart : Z) (s : State),
    performSearchLogic c (with_preflight (Some true) params) language
      timeStart s
    = match performSearchLogic c params language timeStart s with
      | (Normal r, s') => (Normal (withoutHits r), s')
      | (Throw e, s') => (Throw e, s')
      end.
Proof.
  intros c params language timeStart s. rewrite !performSearchLogic_run.
  change (unpaginated c (with_preflight (Some true) params) language s)
    with (unpaginated c params language s).
  destruct (unpaginated c params language s) as [[arr|e] s']; reflexivity.
Qed.













(** X23: an unknown property also fails a search that runs asynchronously:
    with pre-search hooks that change nothing, the promise is rejected with
    the [UNKNOWN_INDEX] error, and the post-search hooks, whatever they are,
    are not run (the state is the one the failed resolution left, later in
    time). *)
Theorem unknown_property_rejects_promise :
  forall (c : Components)
         (before : option (list (SearchParams.t -> option jsstring -> M unit)))
         (after : option (list (SearchParams.t -> option jsstring ->
                                 Results.t -> M Results.t)))
         (params : SearchParams.t) (language : option jsstring)
         (s s1 : State) (ps l : list jsstring),
    hooksRegistered before || hooksRegistered after = true ->
    allHooks noopBeforeHook before ->
    resolvePropertiesToSearch c s = (Normal ps, s1) ->
    SearchParams.properties params = Some (PropertiesList l) ->
    (exists q, In q l /\ ~ In q ps) ->
    exists promise s0 prop n,
      fullTextSearch (with_hooks before after c) params language s
      = (Normal (Pending promise), s0)
      /\ In prop l /\ ~ In prop ps
      /\ promise s0
         = (Throw (createError (js "UNKNOWN_INDEX")
                     [prop; JS.join (js ", ") ps]), tick n s1).
Proof.
  intros c before after params language s s1 ps l Hasync Hbefore Hres Hprops
    Hbad.
  destruct (forEach_checkProperty_unknown ps l Hbad)
    as (l1 & p & l2 & Hl & _ & Hp & Hrun).
  unfold fullTextSearch. rewrite bind_run, getNanosecondsTime_run. cbv zeta.
  cbn [beforeSearch afterSearch with_hooks]. rewrite Hasync. cbn [ret].
  assert (Hpre : exists n,
    match before with
    | Some hooks => runBeforeSearch hooks params language
    | None => ret tt
    end (tick 1 s) = (Normal tt, tick n (tick 1 s))).
  { destruct before as [hooks|].
    - apply runBeforeSearch_noop, Hbefore.
    - exists 0%nat. rewrite tick_0. reflexivity. }
  destruct Hpre as [n Hpre].
  eexists _, (tick 1 s), p, (1 + n)%nat. split; [reflexivity|].
  split; [rewrite Hl; apply in_or_app; right; left; reflexivity|].
  split; [exact Hp|].
  unfold executeSearchAsync. cbn [beforeSearch afterSearch with_hooks].
  rewrite bind_run, Hpre, bind_run.
  change (performSearchLogic (with_hooks before after c) params language)
    with (performSearchLogic c params language).
  pose proof (clockFree_resolvePropertiesToSearch c (1 + n)%nat s) as Hres'.
  rewrite Hres in Hres'. cbn [fst snd] in Hres'.
  rewrite tick_tick.
  destruct (innerFullTextSearch_unknown c params language l ps p
              (tick (1 + n) s) (tick (1 + n) s1) Hprops Hrun Hres')
    as [_ Hcore].
  rewrite Hcore. reflexivity.
Qed.

Lemma unknown_property_rejects_promise_witness :
  exists promise s0 prop n,
    fullTextSearch
      (with_hooks (Some [idleBefore]) (Some [dropHitsAfter])
         (exampleComponents titleBody twoCandidates))
      unknownPropertyParams None (initialState catStore ∅)
    = (Normal (Pending promise), s0)
    /\ In prop [js "nonexistent"] /\ ~ In prop [js "title"; js "body"]
    /\ promise s0
       = (Throw (createError (js "UNKNOWN_INDEX")
                   [prop; JS.join (js ", ") [js "title"; js "body"]]),
          tick n resolvedState).
Proof.
  apply (unknown_property_rejects_promise
           (exampleComponents titleBody twoCandidates) (Some [idleBefore])
           (Some [dropHitsAfter]) unknownPropertyParams None
           (initialState catStore ∅) resolvedState [js "title"; js "body"]
           [js "nonexistent"]).
  - reflexivity.
  - constructor; [|constructor]. intros params language s. exists 0%nat.
    rewrite tick_0. reflexivity.
  - vm_compute. reflexivity.
  - reflexivity.
  - exists (js "nonexistent"). split; [left; reflexivity|].
    intros [H|[H|[]]]; discriminate H.
Defined.

(* ===================================================================== *)
(** ** More on the relevance defaults *)
(* ===================================================================== *)

(** X24: filling in the defaults is idempotent: once a relevance object has
    gone through [applyDefault], putting it through again returns the same
    reference and leaves the whole state as it is. *)
Theorem applyDefault_idempotent :
  forall (r : positive) (s : State),
    applyDefault (Some r) (snd (applyDefault (Some r) s))
    = (Normal r, snd (applyDefault (Some r) s)).
Proof.
  intros r [orama objects calls clock reads].
  cbv [applyDefault bind ret readObject writeObject gets modify set_objects
       st_objects st_orama st_indexCalls st_clock st_clockReads snd].
  rewrite !lookup_total_insert_eq. cbn [BM25Params.k BM25Params.b BM25Params.d].
  rewrite !insert_insert_eq.
  generalize (objects !!! r). intros [[?|] [?|] [?|]]; reflexivity.
Qed.

(** X25: without a relevance object of the caller, [applyDefault] allocates
    a new object holding the three defaults; the reference was not in use
    and every object that existed is left as it was, so the defaults are
    never written into anything the caller can see. *)
Theorem applyDefault_allocates :
  forall s : State,
    exists r s',
      applyDefault None s = (Normal r, s')
      /\ st_objects s !! r = None
      /\ st_objects s' !! r = Some defaultBM25Params
      /\ forall r', r' <> r -> st_objects s' !! r' = st_objects s !! r'.
Proof.
  intros s. destruct (applyDefault_run None s) as (s' & Hrun & Hobj & Hother & _).
  cbv zeta in *. eexists _, s'. split; [exact Hrun|].
  split; [|split; [exact Hobj | exact Hother]].
  apply not_elem_of_dom, is_fresh.
Qed.
